(** * Constitutional-change corpus utilities: a shallow embedding

    Embedding of [src/Python/download_data/config_utils.py]:
    [get_df] (filename-driven metadata extraction and corpus assembly),
    [lemmatization] (spaCy pipeline, punctuation filter, lower-casing) and
    [save_parquet] (extension check before the write).

    Python values are modelled as follows.
    - [str] is a sequence of Unicode code points ([list N]).
    - [bytes] is [list Byte.byte].
    - a raised exception is the [Raise] branch of [result].
    - the file system, the spaCy model registry and the Parquet writer are
      the environment: they are arguments of the functions that use them. *)

From Stdlib Require Import Strings.String Strings.Ascii Strings.Byte.
From Stdlib Require Import List NArith ZArith Lia Bool.
From Equations Require Import Equations.
Import ListNotations.

(** ** Python strings *)

Definition char := N.
Definition str := list char.

(** A literal: the code points of an ASCII Rocq string. *)
Definition py (s : string) : str :=
  List.map N_of_ascii (list_ascii_of_string s).

Fixpoint str_eqb (a b : str) : bool :=
  match a, b with
  | [], [] => true
  | x :: a', y :: b' => N.eqb x y && str_eqb a' b'
  | _, _ => false
  end.

Definition underscore : char := 95%N.
Definition dot : char := 46%N.
Definition slash : char := 47%N.

(** ** Exceptions and results *)

Inductive exn : Type :=
| OSError (msg : str)
| ValueError (msg : str)
| IndexError
| UnicodeDecodeError
| OtherError (msg : str).

Inductive result (A : Type) : Type :=
| Ok (a : A)
| Raise (e : exn).
Arguments Ok {A} a.
Arguments Raise {A} e.

Definition bind {A B} (m : result A) (k : A -> result B) : result B :=
  match m with
  | Ok a => k a
  | Raise e => Raise e
  end.

Declare Scope py_scope.
Delimit Scope py_scope with py.
Notation "x <- m ;; k" := (bind m (fun x => k))
  (at level 61, m at next level, right associativity) : py_scope.
Open Scope py_scope.

(** ** Sequence operations of Python, as the source uses them *)

Section Sequences.
Variable A : Type.

(** [l[i]], also for negative [i]; out of range is [IndexError]. *)
Definition getitem (l : list A) (i : Z) : result A :=
  let n := Z.of_nat (length l) in
  let j := (if i <? 0 then i + n else i)%Z in
  if ((j <? 0) || (n <=? j))%Z then Raise IndexError
  else match nth_error l (Z.to_nat j) with
       | Some a => Ok a
       | None => Raise IndexError
       end.

(** [l[:stop]], also for negative [stop]; a slice never raises. *)
Definition slice_to (l : list A) (stop : Z) : list A :=
  let n := Z.of_nat (length l) in
  let j := (if stop <? 0 then Z.max 0 (stop + n) else Z.min stop n)%Z in
  firstn (Z.to_nat j) l.

(** [l[start:]] for [start >= 0]. *)
Definition slice_from (l : list A) (start : Z) : list A :=
  skipn (Z.to_nat start) l.
End Sequences.
Arguments getitem {A} l i.
Arguments slice_to {A} l stop.
Arguments slice_from {A} l start.

(** [s.split(sep)] for a one-character separator: the pieces between the
    occurrences of [sep], empty pieces included. *)
Fixpoint split (sep : char) (s : str) : list str :=
  match s with
  | [] => [[]]
  | c :: s' =>
      if N.eqb c sep then [] :: split sep s'
      else match split sep s' with
           | [] => [[c]]
           | w :: ws => (c :: w) :: ws
           end
  end.

(** [sep.join(parts)]. *)
Fixpoint join (sep : str) (parts : list str) : str :=
  match parts with
  | [] => []
  | [p] => p
  | p :: ps => p ++ sep ++ join sep ps
  end.

(** [s.rfind(c)] for a one-character [c]: the highest index of [c] in [s],
    or [-1]. *)
Fixpoint rfind_from (c : char) (s : str) (i : Z) (found : Z) : Z :=
  match s with
  | [] => found
  | x :: s' => rfind_from c s' (i + 1) (if N.eqb x c then i else found)
  end.

Definition rfind (c : char) (s : str) : Z := rfind_from c s 0 (-1).

Definition len (s : str) : Z := Z.of_nat (length s).

(** ** pathlib (POSIX flavour) *)

Module Path.

(** A parsed path: the root (empty, one slash or two) and the components
    after it.  Empty components and ["."] are dropped when the path is
    parsed. *)
Record t : Type := mk { root : str; parts : list str }.

Fixpoint leading_slashes (s : str) : nat :=
  match s with
  | c :: s' => if N.eqb c slash then S (leading_slashes s') else 0
  | [] => 0
  end.

Definition parse_root (s : str) : str :=
  match leading_slashes s with
  | 0 => []
  | 2 => [slash; slash]
  | _ => [slash]
  end.

Definition keep_part (x : str) : bool :=
  negb (str_eqb x []) && negb (str_eqb x [dot]).

(** [Path(s)] *)
Definition of_str (s : str) : t :=
  mk (parse_root s) (filter keep_part (split slash s)).

(** [p.name]: the final component, or the empty string. *)
Definition name (p : t) : str := last (parts p) [].

(** [p.suffix] *)
Definition suffix (p : t) : str :=
  let name := name p in
  let i := rfind dot name in
  if ((0 <? i) && (i <? len name - 1))%Z then slice_from name i else [].

(** [p.stem] *)
Definition stem (p : t) : str :=
  let name := name p in
  let i := rfind dot name in
  if ((0 <? i) && (i <? len name - 1))%Z then slice_to name i else name.

(** [str(p)] *)
Definition to_str (p : t) : str :=
  match root p, parts p with
  | [], [] => [dot]
  | r, ps => r ++ join [slash] ps
  end.

End Path.

(** ** Metadata extraction of [get_df] (the first half of the loop body) *)

Definition country_of_stem (stem : str) : str :=
  let country_parts := slice_to (split underscore stem) (-1) in
  join (py " ") country_parts.

Definition year_of_stem (stem : str) : result str :=
  getitem (split underscore stem) (-1).

(** ** Decoding file content

    [open(..., encoding='utf-8', errors=...)] followed by [read()]: the bytes
    of the file are decoded as UTF-8, then universal-newline translation is
    applied.  The decoder follows CPython's: an invalid start byte is an
    error of one byte, an invalid continuation byte ends an error that
    covers the bytes before it, and a sequence cut by the end of the data is
    an error that covers the rest. *)

Inductive error_handler : Type := Strict | Ignore | Replace.

Definition is_continuation_byte (b : N) : bool :=
  N.eqb (N.land b 0xC0) 0x80.

(** What the decoder does at an error, [k] being the decoding of the data
    after the error. *)
Definition decode_error (errors : error_handler) (k : result str) : result str :=
  match errors with
  | Strict => Raise UnicodeDecodeError
  | Ignore => k
  | Replace => s <- k ;; Ok (0xFFFD%N :: s)
  end.

Definition emit (ch : char) (k : result str) : result str :=
  s <- k ;; Ok (ch :: s).

Fixpoint utf8_decode (errors : error_handler) (s : list byte) : result str :=
  match s with
  | [] => Ok []
  | c :: s1 =>
    let ch := Byte.to_N c in
    if (ch <? 0x80)%N then emit ch (utf8_decode errors s1)
    else if (ch <? 0xE0)%N then
      (* \xC2\x80-\xDF\xBF : 0080-07FF *)
      if (ch <? 0xC2)%N then decode_error errors (utf8_decode errors s1)
      else match s1 with
        | [] => decode_error errors (Ok [])
        | c2 :: s2 =>
          let ch2 := Byte.to_N c2 in
          if negb (is_continuation_byte ch2)
          then decode_error errors (utf8_decode errors s1)
          else emit (N.shiftl ch 6 + ch2 - (N.shiftl 0xC0 6 + 0x80))%N
                    (utf8_decode errors s2)
        end
    else if (ch <? 0xF0)%N then
      (* \xE0\xA0\x80-\xEF\xBF\xBF : 0800-FFFF, surrogates excluded *)
      match s1 with
      | [] => decode_error errors (Ok [])
      | c2 :: s2 =>
        let ch2 := Byte.to_N c2 in
        if negb (is_continuation_byte ch2)
           || (if (ch2 <? 0xA0)%N then N.eqb ch 0xE0 else N.eqb ch 0xED)
        then decode_error errors (utf8_decode errors s1)
        else match s2 with
          | [] => decode_error errors (Ok [])
          | c3 :: s3 =>
            let ch3 := Byte.to_N c3 in
            if negb (is_continuation_byte ch3)
            then decode_error errors (utf8_decode errors s2)
            else emit (N.shiftl ch 12 + N.shiftl ch2 6 + ch3
                       - (N.shiftl 0xE0 12 + N.shiftl 0x80 6 + 0x80))%N
                      (utf8_decode errors s3)
          end
      end
    else if (ch <? 0xF5)%N then
      (* \xF0\x90\x80\x80-\xF4\x8F\xBF\xBF : 10000-10FFFF *)
      match s1 with
      | [] => decode_error errors (Ok [])
      | c2 :: s2 =>
        let ch2 := Byte.to_N c2 in
        if negb (is_continuation_byte ch2)
           || (if (ch2 <? 0x90)%N then N.eqb ch 0xF0 else N.eqb ch 0xF4)
        then decode_error errors (utf8_decode errors s1)
        else match s2 with
          | [] => decode_error errors (Ok [])
          | c3 :: s3 =>
            let ch3 := Byte.to_N c3 in
            if negb (is_continuation_byte ch3)
            then decode_error errors (utf8_decode errors s2)
            else match s3 with
              | [] => decode_error errors (Ok [])
              | c4 :: s4 =>
                let ch4 := Byte.to_N c4 in
                if negb (is_continuation_byte ch4)
                then decode_error errors (utf8_decode errors s3)
                else emit (N.shiftl ch 18 + N.shiftl ch2 12 + N.shiftl ch3 6 + ch4
                           - (N.shiftl 0xF0 18 + N.shiftl 0x80 12
                              + N.shiftl 0x80 6 + 0x80))%N
                          (utf8_decode errors s4)
              end
          end
      end
    else decode_error errors (utf8_decode errors s1)
  end.

(** Universal newlines on reading: ["\r\n"] and ["\r"] become ["\n"]. *)
Fixpoint translate_newlines (s : str) : str :=
  match s with
  | [] => []
  | c :: s' =>
    if N.eqb c 13 then
      match s' with
      | c' :: s'' => if N.eqb c' 10 then 10%N :: translate_newlines s''
                     else 10%N :: translate_newlines s'
      | [] => [10%N]
      end
    else c :: translate_newlines s'
  end.

(** ** The file system, as [get_df] sees it

    [open_bytes fs p] is what opening [p] for reading gives: the content of
    the file, or the exception that [open] raises (no such file, a
    directory, no permission). *)

Definition filesystem : Type := Path.t -> result (list byte).

(** [with p.open('r', encoding='utf-8', errors=errors) as f: f.read()] *)
Definition read_text (fs : filesystem) (p : Path.t) (errors : error_handler)
  : result str :=
  data <- fs p ;;
  text <- utf8_decode errors data ;;
  Ok (translate_newlines text).

(** ** pandas.DataFrame built from a dict of columns *)

Module DataFrame.

(** The columns in the order of the dict, each with its name. *)
Definition t : Type := list (str * list str).

Definition same_length (n : nat) (col : str * list str) : bool :=
  Nat.eqb (List.length (snd col)) n.

(** [pd.DataFrame({...})]: the columns must have one length. *)
Definition make (data : list (str * list str)) : result t :=
  match data with
  | [] => Ok []
  | (_, v) :: _ =>
    if forallb (same_length (List.length v)) data then Ok data
    else Raise (ValueError (py "All arrays must be of the same length"))
  end.

(** [df.columns] *)
Definition columns (df : t) : list str := List.map fst df.

(** [len(df)]: the number of rows. *)
Definition nrows (df : t) : nat :=
  match df with
  | [] => 0
  | (_, v) :: _ => List.length v
  end.

(** [df[name]]: the first column of that name. *)
Fixpoint column (df : t) (name : str) : option (list str) :=
  match df with
  | [] => None
  | (k, v) :: df' => if str_eqb k name then Some v else column df' name
  end.

(** [df.iloc[i]]: the values of row [i], column by column. *)
Definition row (df : t) (i : nat) : option (list str) :=
  if Nat.ltb i (nrows df)
  then Some (List.map (fun col => nth i (snd col) []) df)
  else None.

End DataFrame.

(** ** [get_df] *)

(** The [for] loop, with the three lists it appends to. *)
Fixpoint get_df_loop (fs : filesystem) (paths : list Path.t)
         (countries years constitutions : list str)
  : result (list str * list str * list str) :=
  match paths with
  | [] => Ok (countries, years, constitutions)
  | text_path :: rest =>
    let stem := Path.stem text_path in
    let countries := countries ++ [country_of_stem stem] in
    year <- year_of_stem stem ;;
    let years := years ++ [year] in
    text <- read_text fs text_path Ignore ;;
    let constitutions := constitutions ++ [text] in
    get_df_loop fs rest countries years constitutions
  end.

Definition get_df (fs : filesystem) (text_files : list str)
  : result DataFrame.t :=
  cols <- get_df_loop fs (List.map Path.of_str text_files) [] [] [] ;;
  let '(countries, years, constitutions) := cols in
  DataFrame.make [ (py "country", countries);
                   (py "year", years);
                   (py "constitution", constitutions) ].

(** ** Effects that are observable from outside: a trace

    [lemmatization] and [save_parquet] call into spaCy, pyarrow and the
    logger.  A computation gives the events it caused, in order, and its
    outcome. *)

Inductive event : Type :=
| SpacyLoad (model : str) (disable : list str)
| PipeBatch (size : nat)
| PipeDoc (text : str)
| ToParquet (path : Path.t) (df : DataFrame.t)
| LogInfo (msg : str).

Definition traced (A : Type) : Type := (list event * result A)%type.

Definition tret {A} (a : A) : traced A := ([], Ok a).

Definition tbind {A B} (m : traced A) (k : A -> traced B) : traced B :=
  match m with
  | (tr, Ok a) => let '(tr', r) := k a in (tr ++ tr', r)
  | (tr, Raise e) => (tr, Raise e)
  end.

Definition tell (ev : event) : traced unit := ([ev], Ok tt).

Definition lift {A} (r : result A) : traced A := ([], r).

Notation "x <~ m ;; k" := (tbind m (fun x => k))
  (at level 61, m at next level, right associativity) : py_scope.

(** ** spaCy, as [lemmatization] uses it *)

Module Spacy.

(** The attributes of a token that the source reads. *)
Record Token : Type := mkToken { lemma_ : str; is_punct : bool }.

Definition Doc : Type := list Token.

(** A loaded pipeline [nlp]: what [nlp(text)] gives for one text (a text
    longer than [nlp.max_length] raises). *)
Definition Language : Type := str -> result Doc.

(** [spacy.load(name, disable=...)]: the installed models. *)
Definition loader : Type := str -> list str -> result Language.

(** [util.minibatch(items, size)]: consecutive batches of [size] items,
    the last one possibly shorter; it stops at the first empty batch. *)
Equations? minibatch {A : Type} (size : nat) (items : list A)
  : list (list A) by wf (List.length items) lt :=
  minibatch 0 _ := [];
  minibatch (S n) [] := [];
  minibatch (S n) (x :: rest) :=
    firstn (S n) (x :: rest) :: minibatch (S n) (skipn (S n) (x :: rest)).
Proof.
  simpl. pose proof (length_skipn n rest). lia.
Qed.

(** The documents of one batch, in order; the first text that fails ends
    the run. *)
Fixpoint pipe_batch (nlp : Language) (batch : list str) : traced (list Doc) :=
  match batch with
  | [] => tret []
  | text :: rest =>
    _ <~ tell (PipeDoc text) ;;
    doc <~ lift (nlp text) ;;
    docs <~ pipe_batch nlp rest ;;
    tret (doc :: docs)
  end.

Fixpoint pipe_batches (nlp : Language) (batches : list (list str))
  : traced (list Doc) :=
  match batches with
  | [] => tret []
  | batch :: rest =>
    _ <~ tell (PipeBatch (List.length batch)) ;;
    docs <~ pipe_batch nlp batch ;;
    docs' <~ pipe_batches nlp rest ;;
    tret (docs ++ docs')
  end.

(** Modelled from the spec: [nlp.pipe(texts, batch_size=n)] is spaCy's and
    not in the repository; section 4.2 has the documents processed in
    fixed-size batches, in input order. *)
Definition pipe (nlp : Language) (texts : list str) (batch_size : nat)
  : traced (list Doc) :=
  pipe_batches nlp (minibatch batch_size texts).

End Spacy.

(** ** [lemmatization] *)

Section Lemmatization.

(** [str.lower] and the installed models are the environment. *)
Variable lower : str -> str.
Variable spacy_load : Spacy.loader.

(** [[token.lemma_.lower() for token in doc if not token.is_punct]] *)
Fixpoint doc_lemmas (doc : Spacy.Doc) : list str :=
  match doc with
  | [] => []
  | token :: rest =>
    if negb (Spacy.is_punct token)
    then lower (Spacy.lemma_ token) :: doc_lemmas rest
    else doc_lemmas rest
  end.

Definition model_not_found (model : str) : str :=
  py "spaCy model '" ++ model ++ py "' not found. Install with:" ++ [10%N]
  ++ py "python -m spacy download " ++ model.

Definition lemmatization (texts : list str) (model : str)
  : traced (list (list str)) :=
  let disable := [py "parser"; py "ner"] in
  _ <~ tell (SpacyLoad model disable) ;;
  match spacy_load model disable with
  | Raise (OSError _) => lift (Raise (OSError (model_not_found model)))
  | Raise e => lift (Raise e)
  | Ok nlp =>
    docs <~ Spacy.pipe nlp texts 50 ;;
    tret (List.map doc_lemmas docs)
  end.

Definition default_model : str := py "en_core_web_lg".

End Lemmatization.

(** ** [save_parquet] *)

Section Persistence.

(** [df.to_parquet(path, engine='pyarrow', compression='snappy')]: whether
    the write succeeds is the environment's. *)
Variable to_parquet : DataFrame.t -> Path.t -> result unit.

Definition save_parquet (df : DataFrame.t) (path : str) : traced unit :=
  let path := Path.of_str path in
  if negb (str_eqb (Path.suffix path) (py ".parquet"))
  then lift (Raise (ValueError (py "Output path must end with .parquet extension")))
  else
    _ <~ tell (ToParquet path df) ;;
    _ <~ lift (to_parquet df path) ;;
    tell (LogInfo (py "Saved Parquet file: " ++ Path.to_str path)).

End Persistence.

(** * The environment functions

    [verify_environment], [setup_project_dirs], [load_parquet] and the
    module's entry point.  They log at several levels and raise exceptions
    of their own, so they have their own events and outcomes. *)

Inductive level : Type := DEBUG | INFO | WARNING | ERROR.

Inductive sys_event : Type :=
| Log (lvl : level) (msg : str).

Inductive sys_exn : Type :=
| ImportError (msg : str)
| FileNotFoundError (msg : str)
| FileExistsError (msg : str)
| NotADirectoryError (msg : str)
| PermissionError (msg : str)
| ModuleNotFoundError (msg : str)
| Reraised (e : exn).

Inductive outcome (A : Type) : Type :=
| Returns (a : A)
| Raises (e : sys_exn).
Arguments Returns {A} a.
Arguments Raises {A} e.

(** ** [verify_environment] *)

(** The dict [REQUIRED_PACKAGES], in the order of its items. *)
Definition REQUIRED_PACKAGES : list (str * str) :=
  [ (py "pandas", py "2.0.3");
    (py "spacy", py "3.7.2");
    (py "numpy", py "1.24.3");
    (py "pyarrow", py "13.0.0") ].

(** [importlib.metadata.version]: the version of an installed package;
    [None] stands for [PackageNotFoundError]. *)
Definition distributions : Type := str -> option str.

Definition version_mismatch (pkg installed_version req_version : str) : str :=
  py "Version mismatch: " ++ pkg ++ py " (installed: " ++ installed_version
  ++ py ", required: " ++ req_version ++ py ")".

(** The [for] loop over the items: the warnings it logs and the list
    [missing] it appends to. *)
Fixpoint verify_loop (version : distributions) (items : list (str * str))
         (missing : list str) : list sys_event * list str :=
  match items with
  | [] => ([], missing)
  | (pkg, req_version) :: rest =>
    match version pkg with
    | Some installed_version =>
      if negb (str_eqb installed_version req_version) then
        let '(logs, missing) := verify_loop version rest missing in
        (Log WARNING (version_mismatch pkg installed_version req_version)
           :: logs, missing)
      else verify_loop version rest missing
    | None => verify_loop version rest (missing ++ [pkg])
    end
  end.

Definition verify_environment (version : distributions)
  : list sys_event * outcome unit :=
  let '(logs, missing) := verify_loop version REQUIRED_PACKAGES [] in
  let logs := Log INFO (py "Verifying project environment...") :: logs in
  match missing with
  | _ :: _ =>
    (logs ++ [Log ERROR (py "Missing packages: " ++ join (py ", ") missing)],
     Raises (ImportError
               (py "Please install missing packages using requirements.txt")))
  | [] =>
    (logs ++ [Log INFO (py "Environment validation passed")], Returns tt)
  end.

(** ** Directories *)

Module Fs.

(** What the functions see of the directory tree: what is at a path, if
    anything. *)
Inductive kind : Type := Dir | File.

Definition state : Type := Path.t -> option kind.

Fixpoint parts_eqb (a b : list str) : bool :=
  match a, b with
  | [], [] => true
  | x :: a', y :: b' => str_eqb x y && parts_eqb a' b'
  | _, _ => false
  end.

Definition path_eqb (p q : Path.t) : bool :=
  str_eqb (Path.root p) (Path.root q) && parts_eqb (Path.parts p) (Path.parts q).

(** [p.parent]; the parent of a path without components is the path. *)
Definition parent (p : Path.t) : Path.t :=
  Path.mk (Path.root p) (removelast (Path.parts p)).

(** [p / s] *)
Definition truediv (p : Path.t) (s : str) : Path.t :=
  let q := Path.of_str s in
  match Path.root q with
  | [] => Path.mk (Path.root p) (Path.parts p ++ Path.parts q)
  | _ => q
  end.

(** The root and the current directory are there; the rest is the
    state's. *)
Definition lookup (st : state) (p : Path.t) : option kind :=
  match Path.parts p with
  | [] => Some Dir
  | _ => st p
  end.

Definition update (st : state) (p : Path.t) (k : kind) : state :=
  fun q => if path_eqb q p then Some k else st q.

(** [p.is_dir()] *)
Definition is_dir (st : state) (p : Path.t) : bool :=
  match lookup st p with
  | Some Dir => true
  | _ => false
  end.

(** [os.mkdir(p)]: the parent must be a directory and [p] must not be
    there; and the system may refuse to make [p] for a reason that is not
    in the tree (no permission to write in the parent, a read-only file
    system, no space left): [denied p].  Of the paths above [p] only the
    parent is looked at: when the parent is missing the error is
    [FileNotFoundError], also when a file sits higher up. *)
Definition os_mkdir (denied : Path.t -> bool) (st : state) (p : Path.t)
  : state * outcome unit :=
  match Path.parts p with
  | [] => (st, Raises (FileExistsError (Path.to_str p)))
  | _ =>
    match lookup st (parent p) with
    | None => (st, Raises (FileNotFoundError (Path.to_str p)))
    | Some File => (st, Raises (NotADirectoryError (Path.to_str p)))
    | Some Dir =>
      match st p with
      | Some _ => (st, Raises (FileExistsError (Path.to_str p)))
      | None =>
        if denied p then (st, Raises (PermissionError (Path.to_str p)))
        else (update st p Dir, Returns tt)
      end
    end
  end.

(** [p.mkdir(parents=False, exist_ok=exist_ok)] *)
Definition mkdir_single (denied : Path.t -> bool) (st : state) (p : Path.t)
           (exist_ok : bool) : state * outcome unit :=
  match os_mkdir denied st p with
  | (st', Returns _) => (st', Returns tt)
  | (_, Raises (FileNotFoundError m)) => (st, Raises (FileNotFoundError m))
  | (_, Raises e) =>
    if negb exist_ok || negb (is_dir st p) then (st, Raises e)
    else (st, Returns tt)
  end.

(** [p.mkdir(parents=parents, exist_ok=exist_ok)], [p] given by its root
    and its components from the last to the first: when the parent is
    missing, the parent is made with [parents=True, exist_ok=True] and
    [p] is made again without [parents]. *)
Fixpoint mkdir_rev (denied : Path.t -> bool) (st : state) (root : str)
         (rparts : list str) (parents exist_ok : bool)
  : state * outcome unit :=
  let self := Path.mk root (rev rparts) in
  match os_mkdir denied st self with
  | (st', Returns _) => (st', Returns tt)
  | (_, Raises (FileNotFoundError m)) =>
    match rparts with
    | [] => (st, Raises (FileNotFoundError m))
    | _ :: rparent =>
      if negb parents then (st, Raises (FileNotFoundError m))
      else
        match mkdir_rev denied st root rparent true true with
        | (st1, Returns _) => mkdir_single denied st1 self exist_ok
        | (st1, Raises e) => (st1, Raises e)
        end
    end
  | (_, Raises e) =>
    if negb exist_ok || negb (is_dir st self) then (st, Raises e)
    else (st, Returns tt)
  end.

Definition mkdir (denied : Path.t -> bool) (st : state) (p : Path.t)
           (parents exist_ok : bool) : state * outcome unit :=
  mkdir_rev denied st (Path.root p) (rev (Path.parts p)) parents exist_ok.

End Fs.

(** ** The project constants, given [Path(__file__)] *)

Definition PROJECT_ROOT (file : Path.t) : Path.t :=
  Fs.parent (Fs.parent (Fs.parent file)).

Definition DATA_DIR (file : Path.t) : Path.t :=
  Fs.truediv (PROJECT_ROOT file) (py "data").

Definition RAW_TEXT_DIR (file : Path.t) : Path.t :=
  Fs.truediv (Fs.truediv (DATA_DIR file) (py "raw")) (py "constitutions").

Definition PROCESSED_DIR (file : Path.t) : Path.t :=
  Fs.truediv (DATA_DIR file) (py "processed").

(** ** [setup_project_dirs] *)

Fixpoint setup_loop (denied : Path.t -> bool) (st : Fs.state)
         (directories : list Path.t)
  : list sys_event * Fs.state * outcome unit :=
  match directories with
  | [] => ([], st, Returns tt)
  | directory :: rest =>
    match Fs.mkdir denied st directory true true with
    | (st1, Raises e) => ([], st1, Raises e)
    | (st1, Returns _) =>
      let '(logs, st2, r) := setup_loop denied st1 rest in
      (Log DEBUG (py "Verified directory: " ++ Path.to_str directory) :: logs,
       st2, r)
    end
  end.

Definition setup_project_dirs (denied : Path.t -> bool) (file : Path.t)
           (st : Fs.state) : list sys_event * Fs.state * outcome unit :=
  let directories := [DATA_DIR file; RAW_TEXT_DIR file; PROCESSED_DIR file] in
  setup_loop denied st directories.

(** ** The entry point: [if __name__ == '__main__'] *)

Definition main (version : distributions) (denied : Path.t -> bool)
           (file : Path.t) (st : Fs.state)
  : list sys_event * Fs.state * outcome unit :=
  match verify_environment version with
  | (logs, Raises e) => (logs, st, Raises e)
  | (logs, Returns _) =>
    match setup_project_dirs denied file st with
    | (logs', st', Raises e) => (logs ++ logs', st', Raises e)
    | (logs', st', Returns _) =>
      (logs ++ logs'
         ++ [Log INFO (py "Project configuration validated successfully")],
       st', Returns tt)
    end
  end.

(** ** The module run as a script

    Before the entry point is reached the module is executed from its
    first line: the imports of the packages that are not in the standard
    library, [spacy] and then [pandas], come first and raise when the
    package cannot be imported.  The logging set-up and the definitions
    that follow them raise nothing. *)

(** [import name]: [None] when the import succeeds, or the exception. *)
Definition importer : Type := str -> option sys_exn.

Definition module_imports : list str := [py "spacy"; py "pandas"].

Fixpoint import_all (import_module : importer) (names : list str)
  : option sys_exn :=
  match names with
  | [] => None
  | name :: rest =>
    match import_module name with
    | Some e => Some e
    | None => import_all import_module rest
    end
  end.

Definition run_module (import_module : importer) (version : distributions)
           (denied : Path.t -> bool) (file : Path.t) (st : Fs.state)
  : list sys_event * Fs.state * outcome unit :=
  match import_all import_module module_imports with
  | Some e => ([], st, Raises e)
  | None => main version denied file st
  end.

(** ** [load_parquet] *)

Section Loading.

(** [path.exists()] and [pd.read_parquet(path)] are the environment's. *)
Variable path_exists : Path.t -> bool.
Variable read_parquet : Path.t -> result DataFrame.t.

Definition load_parquet (path : str) : outcome DataFrame.t :=
  let path := Path.of_str path in
  if negb (path_exists path)
  then Raises (FileNotFoundError
                 (py "Parquet file not found: " ++ Path.to_str path))
  else match read_parquet path with
       | Ok df => Returns df
       | Raise e => Raises (Reraised e)
       end.

End Loading.

(** * Reference definitions and example environments

    What the loops compute, written without their accumulators, the words
    of the specification where a property compares the code with them,
    and small file systems and a small pipeline on which the examples
    run. *)

Definition year_str (stem : str) : str := last (split underscore stem) [].

(** Reading the files one after the other; the first failure ends it. *)
Fixpoint read_all (fs : filesystem) (paths : list Path.t) : result (list str) :=
  match paths with
  | [] => Ok []
  | p :: rest =>
    text <- read_text fs p Ignore ;;
    texts <- read_all fs rest ;;
    Ok (text :: texts)
  end.

Definition country_of_path (p : Path.t) : str := country_of_stem (Path.stem p).
Definition year_of_path (p : Path.t) : str := year_str (Path.stem p).

Definition corpus (paths : list Path.t) (texts : list str) : DataFrame.t :=
  [ (py "country", List.map country_of_path paths);
    (py "year", List.map year_of_path paths);
    (py "constitution", texts) ].

(** A file system given by its files, for the examples. *)
Definition fs_of (files : list (str * list byte)) : filesystem :=
  fun p =>
    match find (fun kv => str_eqb (fst kv) (Path.to_str p)) files with
    | Some kv => Ok (snd kv)
    | None => Raise (OSError (py "No such file or directory"))
    end.

Definition ascii_bytes (s : string) : list byte := list_byte_of_string s.

Definition two_files : filesystem :=
  fs_of [ (py "data/raw/Brazil_1988.txt", ascii_bytes "Nos, representantes");
          (py "data/raw/USA_1787.txt", ascii_bytes "We the People") ].

Definition three_files : filesystem :=
  fs_of [ (py "Brazil_1988.txt", ascii_bytes "a");
          (py "South_Africa_1996.txt", ascii_bytes "b");
          (py "Nowhereland.txt", ascii_bytes "c") ].

(** Bytes given by their values, for the examples. *)
Definition bytes_of (l : list N) : list byte :=
  List.map (fun n => match Byte.of_N n with Some b => b | None => x00 end) l.

Definition damaged_file : filesystem :=
  fs_of [ (py "Brazil_1988.txt",
           bytes_of [0x41; 0xFF; 0xC3; 0xA9; 0x0D; 0x0A; 0xE2; 0x82]%N) ].

Definition archive_file : filesystem :=
  fs_of [ (py "Brazil_1988.tar.gz", ascii_bytes "x") ].

(** [nlp] on each text in turn; the first failure ends it. *)
Fixpoint run_all (nlp : Spacy.Language) (texts : list str)
  : result (list Spacy.Doc) :=
  match texts with
  | [] => Ok []
  | text :: rest =>
    doc <- nlp text ;;
    docs <- run_all nlp rest ;;
    Ok (doc :: docs)
  end.

Definition disabled : list str := [py "parser"; py "ner"].

(** The words of section 4.2: of the tokens of a document, leave out those
    classified as punctuation, and give the lower-cased lemma of each of
    the others, in the order of the tokens. *)
Definition lemmas_of_non_punctuation (lower : str -> str) (doc : Spacy.Doc)
  : list str :=
  List.map (fun token => lower (Spacy.lemma_ token))
           (filter (fun token => negb (Spacy.is_punct token)) doc).

(** A small pipeline for the examples: words are separated by spaces, a
    full stop or a comma is a punctuation token, the lemma of a word is the
    word; the only installed model is the default one. *)
Definition flush (cur : str) : Spacy.Doc :=
  match cur with
  | [] => []
  | _ => [Spacy.mkToken cur false]
  end.

Fixpoint toy_tokens (cur : str) (text : str) : Spacy.Doc :=
  match text with
  | [] => flush cur
  | c :: rest =>
    if N.eqb c 32 then flush cur ++ toy_tokens [] rest
    else if N.eqb c 46 || N.eqb c 44
         then flush cur ++ Spacy.mkToken [c] true :: toy_tokens [] rest
         else toy_tokens (cur ++ [c]) rest
  end.

Definition toy_nlp : Spacy.Language := fun text => Ok (toy_tokens [] text).

Definition toy_load : Spacy.loader :=
  fun name _ =>
    if str_eqb name (py "en_core_web_lg") then Ok toy_nlp
    else Raise (OSError (py "[E050] Cannot find model")).

Definition ascii_lower (s : str) : str :=
  List.map (fun c => if (65 <=? c)%N && (c <=? 90)%N then (c + 32)%N else c) s.

(** Two tables of the same columns, the rows of the second after the rows
    of the first (what [pd.concat] gives for them). *)
Definition append_rows (ta tb : DataFrame.t) : DataFrame.t :=
  List.map (fun cc => (fst (fst cc), snd (fst cc) ++ snd (snd cc)))
           (combine ta tb).

(** A Unicode scalar value: in range and not a surrogate. *)
Definition scalar_value (c : char) : Prop :=
  (c < 0x110000)%N /\ ~ (0xD800 <= c < 0xE000)%N.

Definition is_ascii (b : byte) : Prop := (Byte.to_N b < 0x80)%N.

(** The texts handed to the pipeline, as the trace has them. *)
Fixpoint processed (tr : list event) : list str :=
  match tr with
  | [] => []
  | PipeDoc text :: tr' => text :: processed tr'
  | _ :: tr' => processed tr'
  end.


(** What a run over the batches leaves in the trace when nothing raises. *)
Definition batch_events (batches : list (list str)) : list event :=
  flat_map (fun batch => PipeBatch (List.length batch) :: List.map PipeDoc batch)
           batches.

(** The Parquet files there are, for the round trip of [save_parquet] and
    [load_parquet]: which table is stored at which path.  A write that
    returned has put the table at the path; reading a path gives the
    table that is there. *)
Definition parquet_store : Type := Path.t -> option DataFrame.t.

Definition store_put (st : parquet_store) (p : Path.t) (df : DataFrame.t)
  : parquet_store :=
  fun q => if Fs.path_eqb q p then Some df else st q.

Fixpoint written (tr : list event) (st : parquet_store) : parquet_store :=
  match tr with
  | [] => st
  | ToParquet p df :: tr' => written tr' (store_put st p df)
  | _ :: tr' => written tr' st
  end.

Definition store_exists (st : parquet_store) (p : Path.t) : bool :=
  match st p with
  | Some _ => true
  | None => false
  end.

Definition store_read (st : parquet_store) (p : Path.t) : result DataFrame.t :=
  match st p with
  | Some df => Ok df
  | None => Raise (OSError (py "No such file or directory"))
  end.

(** The required packages that are not installed, and the warnings for
    those installed in another version, each in the order of the dict. *)
Fixpoint missing_packages (version : distributions) (items : list (str * str))
  : list str :=
  match items with
  | [] => []
  | (pkg, _) :: rest =>
    match version pkg with
    | None => pkg :: missing_packages version rest
    | Some _ => missing_packages version rest
    end
  end.

Fixpoint mismatch_warnings (version : distributions) (items : list (str * str))
  : list sys_event :=
  match items with
  | [] => []
  | (pkg, req_version) :: rest =>
    match version pkg with
    | Some installed_version =>
      if str_eqb installed_version req_version
      then mismatch_warnings version rest
      else Log WARNING (version_mismatch pkg installed_version req_version)
             :: mismatch_warnings version rest
    | None => mismatch_warnings version rest
    end
  end.

(** A distribution set given by its packages, for the examples. *)
Definition installed (pkgs : list (str * str)) : distributions :=
  fun pkg =>
    match find (fun kv => str_eqb (fst kv) pkg) pkgs with
    | Some kv => Some (snd kv)
    | None => None
    end.

(** One tree holds all of another: what was there is there, as it was. *)
Definition extends (st st' : Fs.state) : Prop :=
  forall q k, st q = Some k -> st' q = Some k.

(** What is new in the second tree is a directory. *)
Definition only_dirs_added (st st' : Fs.state) : Prop :=
  forall q k, st' q = Some k -> st q = Some k \/ k = Fs.Dir.

(** [p] is a directory and its parent is there: [mkdir] has nothing to do. *)
Definition settled (st : Fs.state) (p : Path.t) : Prop :=
  Fs.is_dir st p = true /\ Fs.lookup st (Fs.parent p) <> None.

(** The path and the paths above it, up to the root (not included), the
    components given from the last to the first. *)
Fixpoint ancestors_rev (root : str) (rparts : list str) : list Path.t :=
  match rparts with
  | [] => []
  | _ :: rparent => Path.mk root (rev rparts) :: ancestors_rev root rparent
  end.

Definition ancestors (p : Path.t) : list Path.t :=
  ancestors_rev (Path.root p) (rev (Path.parts p)).

(** A tree given by its entries, for the examples. *)
Definition tree_of (entries : list (str * Fs.kind)) : Fs.state :=
  fun p =>
    match find (fun kv => str_eqb (fst kv) (Path.to_str p)) entries with
    | Some kv => Some (snd kv)
    | None => None
    end.

Definition module_file : Path.t :=
  Path.of_str (py "/repo/src/Python/download_data/config_utils.py").

(** The line logged for a directory that is there. *)
Definition verified (directory : Path.t) : sys_event :=
  Log DEBUG (py "Verified directory: " ++ Path.to_str directory).

Definition project_directories (file : Path.t) : list Path.t :=
  [DATA_DIR file; RAW_TEXT_DIR file; PROCESSED_DIR file].


Definition small_table : DataFrame.t :=
  [ (py "country", [py "Brazil"]); (py "year", [py "1988"]) ].

(** Nothing is made where the system refuses to make it. *)
Definition respects (denied : Path.t -> bool) (st st' : Fs.state) : Prop :=
  forall q, st q = None -> denied q = true -> st' q = None.

(** Environments for the examples: a system that refuses nothing, one
    that refuses to make the data directory, imports that all succeed,
    and imports with [spacy] missing. *)
Definition nothing_denied : Path.t -> bool := fun _ => false.

Definition data_dir_denied : Path.t -> bool :=
  fun p => str_eqb (Path.to_str p) (py "/repo/src/data").

Definition imports_ok : importer := fun _ => None.

Definition spacy_missing : importer :=
  fun name =>
    if str_eqb name (py "spacy")
    then Some (ModuleNotFoundError (py "No module named 'spacy'"))
    else None.

Definition repo_tree : Fs.state :=
  tree_of [ (py "/repo", Fs.Dir); (py "/repo/src", Fs.Dir) ].

(** A model whose loading raises something other than [OSError]. *)
Definition broken_load : Spacy.loader :=
  fun _ _ => Raise (ValueError (py "[E002] Cannot find factory")).

(** * Properties *)

(** ** Sequences *)

Lemma getitem_minus1 (A : Type) (l : list A) (d : A) :
  l <> [] -> getitem l (-1) = Ok (last l d).
Proof.
  intros Hl. destruct (exists_last Hl) as [l' [a ->]].
  unfold getitem. rewrite last_last, length_app.
  change (-1 <? 0)%Z with true. cbv iota zeta.
  replace (-1 + Z.of_nat (List.length l' + List.length [a]))%Z
    with (Z.of_nat (List.length l')) by (cbn [List.length]; lia).
  destruct (Z.ltb_spec (Z.of_nat (List.length l')) 0); [lia|].
  destruct (Z.leb_spec (Z.of_nat (List.length l' + List.length [a]))
                       (Z.of_nat (List.length l'))); [cbn [List.length] in *; lia|].
  cbn [orb]. rewrite Nat2Z.id, nth_error_app2, Nat.sub_diag by lia. reflexivity.
Qed.

Lemma slice_to_minus1 (A : Type) (l : list A) :
  slice_to l (-1) = removelast l.
Proof.
  unfold slice_to. replace (-1 <? 0)%Z with true by reflexivity.
  destruct l as [|a l]; [reflexivity|].
  assert (Hne : a :: l <> []) by discriminate.
  destruct (exists_last Hne) as [l' [b E]]. rewrite E.
  rewrite removelast_last, length_app. cbv iota zeta.
  replace (Z.to_nat (Z.max 0 (-1 + Z.of_nat (List.length l' + List.length [b]))))
    with (List.length l' + 0) by (cbn [List.length]; lia).
  rewrite firstn_app_2. simpl. apply app_nil_r.
Qed.

Lemma split_not_nil (sep : char) (s : str) : split sep s <> [].
Proof.
  destruct s as [|c s]; simpl; [discriminate|].
  destruct (N.eqb c sep); [discriminate|].
  destruct (split sep s); discriminate.
Qed.

Lemma split_no_sep (sep : char) (s : str) :
  ~ In sep s -> split sep s = [s].
Proof.
  induction s as [|c s IH]; simpl; intros H; [reflexivity|].
  destruct (N.eqb_spec c sep) as [->|_]; [tauto|].
  rewrite IH by tauto. reflexivity.
Qed.

Lemma split_pieces (sep : char) (s : str) :
  Forall (fun w => ~ In sep w) (split sep s).
Proof.
  induction s as [|c s IH]; simpl.
  - constructor; [tauto|constructor].
  - destruct (N.eqb_spec c sep) as [->|Hc].
    + constructor; [simpl; tauto|exact IH].
    + destruct (split sep s) as [|w ws]; inversion IH; subst.
      * constructor; [simpl; intuition congruence|constructor].
      * constructor; [simpl; intuition congruence|assumption].
Qed.

Lemma join_split (sep : char) (s : str) : join [sep] (split sep s) = s.
Proof.
  induction s as [|c s IH]; simpl; [reflexivity|].
  pose proof (split_not_nil sep s) as Hne.
  destruct (N.eqb_spec c sep) as [->|Hc].
  - destruct (split sep s) as [|w ws]; [congruence|].
    simpl. f_equal. exact IH.
  - destruct (split sep s) as [|w ws]; [congruence|].
    destruct ws as [|w' ws]; simpl in *; congruence.
Qed.

Lemma split_join (sep : char) (segs : list str) :
  segs <> [] -> Forall (fun w => ~ In sep w) segs ->
  split sep (join [sep] segs) = segs.
Proof.
  induction segs as [|w ws IH]; intros Hne Hall; [congruence|].
  inversion Hall as [|? ? Hw Hws]; subst.
  destruct ws as [|w' ws].
  - simpl. apply split_no_sep. exact Hw.
  - change (join [sep] (w :: w' :: ws)) with (w ++ [sep] ++ join [sep] (w' :: ws)).
    specialize (IH ltac:(discriminate) Hws). clear Hall Hne.
    induction w as [|c w IHw].
    + simpl. rewrite N.eqb_refl. f_equal. exact IH.
    + change ((c :: w) ++ [sep] ++ join [sep] (w' :: ws))
        with (c :: (w ++ [sep] ++ join [sep] (w' :: ws))).
      cbn [split]. destruct (N.eqb_spec c sep) as [->|_]; [simpl in Hw; tauto|].
      rewrite IHw by (simpl in Hw; tauto). reflexivity.
Qed.

(** ** The metadata of one file name *)

Lemma year_of_stem_ok (stem : str) : year_of_stem stem = Ok (year_str stem).
Proof. apply getitem_minus1, split_not_nil. Qed.

Lemma country_of_stem_eq (stem : str) :
  country_of_stem stem = join (py " ") (removelast (split underscore stem)).
Proof. unfold country_of_stem. rewrite slice_to_minus1. reflexivity. Qed.

Lemma split_segments (stem : str) :
  split underscore stem = removelast (split underscore stem) ++ [year_str stem].
Proof. apply app_removelast_last, split_not_nil. Qed.

(** ** The loop of [get_df] *)

Lemma get_df_loop_eq fs paths : forall cs ys ts,
  get_df_loop fs paths cs ys ts =
  (texts <- read_all fs paths ;;
   Ok (cs ++ List.map country_of_path paths,
       ys ++ List.map year_of_path paths,
       ts ++ texts)).
Proof.
  induction paths as [|p rest IH]; intros cs ys ts; simpl.
  - rewrite !app_nil_r. reflexivity.
  - rewrite year_of_stem_ok. simpl.
    destruct (read_text fs p Ignore) as [text|e]; simpl; [|reflexivity].
    rewrite IH. destruct (read_all fs rest) as [texts|e]; simpl; [|reflexivity].
    rewrite <- !app_assoc. reflexivity.
Qed.

Lemma read_all_length fs paths texts :
  read_all fs paths = Ok texts -> List.length texts = List.length paths.
Proof.
  revert texts. induction paths as [|p rest IH]; simpl; intros texts H.
  - inversion H. reflexivity.
  - destruct (read_text fs p Ignore); simpl in H; [|discriminate].
    destruct (read_all fs rest) as [ts|]; simpl in H; [|discriminate].
    inversion H. simpl. f_equal. apply IH. reflexivity.
Qed.

Lemma read_all_nth fs paths texts i p :
  read_all fs paths = Ok texts -> nth_error paths i = Some p ->
  exists text, read_text fs p Ignore = Ok text /\ nth_error texts i = Some text.
Proof.
  revert texts i. induction paths as [|q rest IH]; simpl; intros texts i H Hi.
  - destruct i; discriminate.
  - destruct (read_text fs q Ignore) as [t|] eqn:Hq; simpl in H; [|discriminate].
    destruct (read_all fs rest) as [ts|]; simpl in H; [|discriminate].
    inversion H; subst. destruct i as [|i]; simpl in *.
    + inversion Hi; subst. eauto.
    + eapply IH; eauto.
Qed.

Lemma get_df_eq fs text_files :
  get_df fs text_files =
  (texts <- read_all fs (List.map Path.of_str text_files) ;;
   Ok (corpus (List.map Path.of_str text_files) texts)).
Proof.
  unfold get_df. rewrite get_df_loop_eq.
  destruct (read_all fs (List.map Path.of_str text_files)) as [texts|e] eqn:H;
    simpl; [|reflexivity].
  apply read_all_length in H.
  unfold DataFrame.make, DataFrame.same_length. simpl.
  rewrite !length_map, H, length_map, Nat.eqb_refl. reflexivity.
Qed.

(** ** Decoding *)

Lemma str_eqb_spec (a b : str) : reflect (a = b) (str_eqb a b).
Proof.
  revert b. induction a as [|x a IH]; intros [|y b]; simpl;
    try (constructor; congruence).
  destruct (N.eqb_spec x y) as [->|Hxy]; simpl.
  - destruct (IH b) as [->|Hab]; constructor; congruence.
  - constructor; congruence.
Qed.

Lemma emit_ok ch k : (exists t, k = Ok t) -> exists t, emit ch k = Ok t.
Proof. intros [t ->]. simpl. eauto. Qed.

(** With [errors='ignore'] the decoder has a result on every input. *)
Lemma utf8_decode_ignore_total_le (n : nat) : forall data,
  List.length data <= n -> exists text, utf8_decode Ignore data = Ok text.
Proof.
  induction n as [|n IH]; intros data Hn.
  - destruct data; [simpl; eauto|simpl in Hn; lia].
  - destruct data as [|c s1]; [simpl; eauto|].
    simpl in Hn.
    assert (H1 : exists t, utf8_decode Ignore s1 = Ok t) by (apply IH; lia).
    assert (H2 : forall c2 s2, s1 = c2 :: s2 ->
                 exists t, utf8_decode Ignore s2 = Ok t)
      by (intros ? ? ->; apply IH; simpl in Hn; lia).
    assert (H3 : forall c2 c3 s3, s1 = c2 :: c3 :: s3 ->
                 exists t, utf8_decode Ignore s3 = Ok t)
      by (intros ? ? ? ->; apply IH; simpl in Hn; lia).
    assert (H4 : forall c2 c3 c4 s4, s1 = c2 :: c3 :: c4 :: s4 ->
                 exists t, utf8_decode Ignore s4 = Ok t)
      by (intros ? ? ? ? ->; apply IH; simpl in Hn; lia).
    cbn [utf8_decode]. cbv zeta.
    repeat match goal with
      | |- exists t, emit _ _ = Ok t => apply emit_ok
      | |- exists t, decode_error Ignore _ = Ok t => unfold decode_error
      | |- exists t, Ok _ = Ok t => eexists; reflexivity
      | |- exists t, utf8_decode Ignore s1 = Ok t => exact H1
      | |- exists t, utf8_decode Ignore (_ :: _) = Ok t => exact H1
      | |- exists t, utf8_decode Ignore _ = Ok t =>
          first [ eapply H2; reflexivity | eapply H3; reflexivity
                | eapply H4; reflexivity ]
      | |- context [if ?b then _ else _] => destruct b
      | |- context [match ?l with [] => _ | _ :: _ => _ end] =>
          is_var l; destruct l
      end.
Qed.

Lemma utf8_decode_ignore_total (data : list byte) :
  exists text, utf8_decode Ignore data = Ok text.
Proof. apply (utf8_decode_ignore_total_le (List.length data)). lia. Qed.

Lemma emit_inv ch k t :
  emit ch k = Ok t -> exists t', k = Ok t' /\ t = ch :: t'.
Proof.
  destruct k as [t'|e]; simpl; intros H; [|discriminate].
  inversion H. eauto.
Qed.

(** Where the strict decoder has a result, nothing is lost: ignoring errors
    gives the same text. *)
Lemma utf8_decode_strict_ignore_le (n : nat) : forall data text,
  List.length data <= n ->
  utf8_decode Strict data = Ok text -> utf8_decode Ignore data = Ok text.
Proof.
  induction n as [|n IH]; intros data text Hn.
  - destruct data; [simpl; auto|simpl in Hn; lia].
  - destruct data as [|c s1]; [simpl; auto|].
    simpl in Hn.
    assert (H1 : forall t, utf8_decode Strict s1 = Ok t ->
                 utf8_decode Ignore s1 = Ok t) by (intros; apply IH; [lia|auto]).
    assert (H2 : forall c2 s2 t, s1 = c2 :: s2 -> utf8_decode Strict s2 = Ok t ->
                 utf8_decode Ignore s2 = Ok t)
      by (intros ? ? ? -> ?; apply IH; [simpl in Hn; lia|auto]).
    assert (H3 : forall c2 c3 s3 t, s1 = c2 :: c3 :: s3 ->
                 utf8_decode Strict s3 = Ok t -> utf8_decode Ignore s3 = Ok t)
      by (intros ? ? ? ? -> ?; apply IH; [simpl in Hn; lia|auto]).
    assert (H4 : forall c2 c3 c4 s4 t, s1 = c2 :: c3 :: c4 :: s4 ->
                 utf8_decode Strict s4 = Ok t -> utf8_decode Ignore s4 = Ok t)
      by (intros ? ? ? ? ? -> ?; apply IH; [simpl in Hn; lia|auto]).
    cbn [utf8_decode]. cbv zeta.
    repeat match goal with
      | |- decode_error Strict _ = Ok _ -> _ => discriminate
      | |- emit _ _ = Ok _ -> _ =>
          let H := fresh "H" in
          let t' := fresh "t" in
          intros H; apply emit_inv in H; destruct H as [t' [H ->]];
          first [ apply H1 in H
                | eapply H2 in H; [|reflexivity]
                | eapply H3 in H; [|reflexivity]
                | eapply H4 in H; [|reflexivity] ];
          rewrite H; reflexivity
      | |- context [if ?b then _ else _] => destruct b
      | |- context [match ?l with [] => _ | _ :: _ => _ end] =>
          is_var l; destruct l
      end.
Qed.

Lemma utf8_decode_strict_ignore (data : list byte) (text : str) :
  utf8_decode Strict data = Ok text -> utf8_decode Ignore data = Ok text.
Proof. apply (utf8_decode_strict_ignore_le (List.length data)). lia. Qed.

(** ** Reading the files *)

Lemma read_text_ignore_ok fs p data :
  fs p = Ok data -> exists text, read_text fs p Ignore = Ok text.
Proof.
  intros H. unfold read_text. rewrite H. simpl.
  destruct (utf8_decode_ignore_total data) as [t ->]. simpl. eauto.
Qed.

Lemma read_text_ignore_raise fs p e :
  read_text fs p Ignore = Raise e -> fs p = Raise e.
Proof.
  unfold read_text. destruct (fs p) as [data|e']; simpl.
  - destruct (utf8_decode_ignore_total data) as [t ->]. discriminate.
  - congruence.
Qed.

Lemma read_all_ok fs paths :
  (forall p, In p paths -> exists data, fs p = Ok data) ->
  exists texts, read_all fs paths = Ok texts.
Proof.
  induction paths as [|p rest IH]; simpl; intros H; [eauto|].
  destruct (H p (or_introl eq_refl)) as [data Hd].
  destruct (read_text_ignore_ok fs p data Hd) as [t ->].
  destruct IH as [ts ->]; [auto|]. simpl. eauto.
Qed.

Lemma read_all_raise fs paths :
  (exists p e, In p paths /\ fs p = Raise e) ->
  exists p e, In p paths /\ fs p = Raise e /\ read_all fs paths = Raise e.
Proof.
  induction paths as [|q rest IH]; intros [p [e [Hin Hp]]]; [destruct Hin|].
  simpl. destruct (read_text fs q Ignore) as [t|e'] eqn:Hq.
  - destruct Hin as [->|Hin].
    + unfold read_text in Hq. rewrite Hp in Hq. discriminate.
    + destruct IH as [p' [e' [Hin' [Hp' Hr]]]]; [eauto|].
      exists p', e'. rewrite Hr. auto.
  - exists q, e'. apply read_text_ignore_raise in Hq. auto.
Qed.

(** ** The table of [get_df] *)

Lemma get_df_ok_inv fs text_files df :
  get_df fs text_files = Ok df ->
  exists texts,
    read_all fs (List.map Path.of_str text_files) = Ok texts /\
    df = corpus (List.map Path.of_str text_files) texts.
Proof.
  rewrite get_df_eq.
  destruct (read_all fs (List.map Path.of_str text_files)) as [texts|e];
    simpl; intros H; inversion H. eauto.
Qed.

Lemma corpus_row paths texts i p text :
  nth_error paths i = Some p -> nth_error texts i = Some text ->
  DataFrame.row (corpus paths texts) i =
  Some [country_of_path p; year_of_path p; text].
Proof.
  intros Hp Ht. unfold DataFrame.row, corpus, DataFrame.nrows.
  assert (Hi : i < List.length paths) by (apply nth_error_Some; congruence).
  rewrite length_map. destruct (Nat.ltb_spec i (List.length paths)); [|lia].
  cbn [List.map snd].
  rewrite (nth_error_nth _ _ _ (map_nth_error country_of_path _ _ Hp)).
  rewrite (nth_error_nth _ _ _ (map_nth_error year_of_path _ _ Hp)).
  rewrite (nth_error_nth _ _ _ Ht). reflexivity.
Qed.

(** C3: when [get_df] returns a table, the table has one row per input
    path, and row [i] holds the country and year parsed from
    [text_files[i]] and the text read from that file: the order is the
    input's, nothing is skipped, merged or reordered. *)
Theorem get_df_one_row_per_path fs text_files df :
  get_df fs text_files = Ok df ->
  DataFrame.nrows df = List.length text_files /\
  forall i path,
    nth_error text_files i = Some path ->
    let text_path := Path.of_str path in
    exists year text,
      year_of_stem (Path.stem text_path) = Ok year /\
      read_text fs text_path Ignore = Ok text /\
      DataFrame.row df i =
      Some [country_of_stem (Path.stem text_path); year; text].
Proof.
  intros H. apply get_df_ok_inv in H as [texts [Hr ->]]. split.
  - unfold corpus, DataFrame.nrows. rewrite !length_map. reflexivity.
  - intros i path Hi text_path.
    assert (Hp : nth_error (List.map Path.of_str text_files) i = Some text_path)
      by (apply map_nth_error; exact Hi).
    destruct (read_all_nth _ _ _ _ _ Hr Hp) as [text [Ht Hn]].
    exists (year_str (Path.stem text_path)), text.
    repeat split; [apply year_of_stem_ok|exact Ht|].
    apply corpus_row; assumption.
Qed.

Lemma get_df_one_row_per_path_witness :
  exists df,
    get_df two_files [py "data/raw/Brazil_1988.txt"; py "data/raw/USA_1787.txt"]
    = Ok df /\
    DataFrame.nrows df = 2 /\
    DataFrame.row df 1 = Some [py "USA"; py "1787"; py "We the People"].
Proof.
  eexists. split; [reflexivity|].
  destruct (get_df_one_row_per_path two_files
              [py "data/raw/Brazil_1988.txt"; py "data/raw/USA_1787.txt"]
              _ eq_refl) as [Hn Hrow].
  split; [exact Hn|].
  destruct (Hrow 1 (py "data/raw/USA_1787.txt") eq_refl) as [y [t [Hy [Ht Hr]]]].
  vm_compute in Hy, Ht. inversion Hy; inversion Ht; subst. exact Hr.
Defined.

Lemma get_df_readable fs text_files :
  (forall path, In path text_files ->
     exists data, fs (Path.of_str path) = Ok data) ->
  exists texts,
    read_all fs (List.map Path.of_str text_files) = Ok texts /\
    get_df fs text_files = Ok (corpus (List.map Path.of_str text_files) texts).
Proof.
  intros H.
  destruct (read_all_ok fs (List.map Path.of_str text_files)) as [texts Hr].
  - intros p Hp. apply in_map_iff in Hp as [path [<- Hin]]. auto.
  - exists texts. rewrite get_df_eq, Hr. auto.
Qed.

(** C1: for every input path, the base name with its extension stripped is
    split on ['_']; the year of the record is the last segment as it is, the
    country is the segments before it joined with one space.  A base name
    without ['_'] gives the empty country and the whole name as year.  The
    parsing raises nothing: with every file readable, [get_df] returns its
    table whatever the names are. *)
Theorem get_df_filename_metadata fs text_files :
  (forall path, In path text_files ->
     exists data, fs (Path.of_str path) = Ok data) ->
  exists df countries years,
    get_df fs text_files = Ok df /\
    DataFrame.column df (py "country") = Some countries /\
    DataFrame.column df (py "year") = Some years /\
    forall i path,
      nth_error text_files i = Some path ->
      let stem := Path.stem (Path.of_str path) in
      exists segments year,
        split underscore stem = segments ++ [year] /\
        join [underscore] (segments ++ [year]) = stem /\
        Forall (fun w => ~ In underscore w) (segments ++ [year]) /\
        nth_error countries i = Some (join (py " ") segments) /\
        nth_error years i = Some year /\
        (~ In underscore stem ->
         join (py " ") segments = [] /\ year = stem).
Proof.
  intros Hfs. destruct (get_df_readable fs text_files Hfs) as [texts [_ Hdf]].
  eexists. exists (List.map country_of_path (List.map Path.of_str text_files)).
  exists (List.map year_of_path (List.map Path.of_str text_files)).
  split; [exact Hdf|]. split; [reflexivity|]. split; [reflexivity|].
  intros i path Hi stem.
  exists (removelast (split underscore stem)), (year_str stem).
  pose proof (split_segments stem) as Hsplit.
  split; [exact Hsplit|].
  split; [rewrite <- Hsplit; apply join_split|].
  split; [rewrite <- Hsplit; apply split_pieces|].
  split.
  { rewrite <- country_of_stem_eq.
    apply (map_nth_error country_of_path), (map_nth_error Path.of_str), Hi. }
  split.
  { apply (map_nth_error year_of_path), (map_nth_error Path.of_str), Hi. }
  intros Hno. unfold year_str. rewrite (split_no_sep underscore stem Hno).
  split; reflexivity.
Qed.

Lemma get_df_filename_metadata_witness :
  get_df three_files
    [py "Brazil_1988.txt"; py "South_Africa_1996.txt"; py "Nowhereland.txt"]
  = Ok [ (py "country", [py "Brazil"; py "South Africa"; py ""]);
         (py "year", [py "1988"; py "1996"; py "Nowhereland"]);
         (py "constitution", [py "a"; py "b"; py "c"]) ]
  /\ exists segments year,
       split underscore (py "Nowhereland") = segments ++ [year] /\
       join (py " ") segments = [] /\ year = py "Nowhereland".
Proof.
  split; [reflexivity|].
  destruct (get_df_filename_metadata three_files
      [py "Brazil_1988.txt"; py "South_Africa_1996.txt"; py "Nowhereland.txt"])
    as [df [cs [ys [_ [_ [_ H]]]]]].
  - intros path [<-|[<-|[<-|[]]]]; eexists; reflexivity.
  - destruct (H 2 (py "Nowhereland.txt") eq_refl)
      as [segments [year [Hs [_ [_ [_ [_ Hno]]]]]]].
    exists segments, year. split; [exact Hs|]. apply Hno.
    vm_compute. intuition discriminate.
Defined.

(** C5, as the code has it: the table of [get_df] has exactly three columns,
    named country, year and constitution, in this order; for every input
    file, the constitution column holds at the file's row the text read
    from that file, and the country and year columns hold the country and
    the year parsed from its name. *)
Theorem get_df_columns fs text_files df :
  get_df fs text_files = Ok df ->
  DataFrame.columns df = [py "country"; py "year"; py "constitution"] /\
  exists countries years texts,
    df = [ (py "country", countries); (py "year", years);
           (py "constitution", texts) ] /\
    List.length texts = List.length text_files /\
    forall i path,
      nth_error text_files i = Some path ->
      let text_path := Path.of_str path in
      exists year text,
        read_text fs text_path Ignore = Ok text /\
        year_of_stem (Path.stem text_path) = Ok year /\
        nth_error texts i = Some text /\
        nth_error countries i = Some (country_of_stem (Path.stem text_path)) /\
        nth_error years i = Some year.
Proof.
  intros H. apply get_df_ok_inv in H as [texts [Hr ->]].
  split; [reflexivity|].
  exists (List.map country_of_path (List.map Path.of_str text_files)).
  exists (List.map year_of_path (List.map Path.of_str text_files)).
  exists texts. split; [reflexivity|]. split.
  { rewrite (read_all_length _ _ _ Hr). apply length_map. }
  intros i path Hi text_path.
  assert (Hp : nth_error (List.map Path.of_str text_files) i = Some text_path)
    by (apply map_nth_error; exact Hi).
  destruct (read_all_nth _ _ _ _ _ Hr Hp) as [text [Ht Hn]].
  exists (year_str (Path.stem text_path)), text.
  split; [exact Ht|]. split; [apply year_of_stem_ok|]. split; [exact Hn|].
  split.
  - apply (map_nth_error country_of_path _ _ Hp).
  - apply (map_nth_error year_of_path _ _ Hp).
Qed.

Lemma get_df_columns_witness :
  exists df texts,
    get_df two_files [py "data/raw/Brazil_1988.txt"] = Ok df /\
    DataFrame.columns df = [py "country"; py "year"; py "constitution"] /\
    DataFrame.column df (py "constitution") = Some texts /\
    nth_error texts 0 = Some (py "Nos, representantes").
Proof.
  destruct (get_df_columns two_files [py "data/raw/Brazil_1988.txt"] _ eq_refl)
    as [Hcols [countries [years [texts [Hdf [_ Hrows]]]]]].
  destruct (Hrows 0 (py "data/raw/Brazil_1988.txt") eq_refl)
    as [year [text [Ht [_ [Hn _]]]]].
  vm_compute in Ht. inversion Ht; subst text.
  eexists. exists texts. split; [reflexivity|]. split; [exact Hcols|].
  split; [rewrite Hdf; reflexivity|exact Hn].
Defined.

(** C5, as the claim has it, fails: the third column is not named text. *)
Lemma get_df_third_column_not_text :
  exists df,
    get_df two_files [py "data/raw/Brazil_1988.txt"] = Ok df /\
    DataFrame.columns df <> [py "country"; py "year"; py "text"] /\
    DataFrame.column df (py "text") = None.
Proof.
  eexists. split; [reflexivity|]. split; [discriminate|reflexivity].
Qed.

(** C7: when a file of the list cannot be opened, the whole call raises the
    exception of such a file, so it returns no table: no file is skipped
    and no shorter table comes back. *)
Theorem get_df_open_failure_propagates fs text_files :
  (exists path e, In path text_files /\ fs (Path.of_str path) = Raise e) ->
  exists path e,
    In path text_files /\ fs (Path.of_str path) = Raise e /\
    get_df fs text_files = Raise e /\
    forall df, get_df fs text_files <> Ok df.
Proof.
  intros [path [e [Hin He]]].
  destruct (read_all_raise fs (List.map Path.of_str text_files))
    as [p' [e' [Hin' [He' Hr]]]].
  { exists (Path.of_str path), e. split; [apply in_map; exact Hin|exact He]. }
  apply in_map_iff in Hin' as [path' [<- Hin']].
  exists path', e'. rewrite get_df_eq, Hr. simpl.
  repeat split; try assumption. discriminate.
Qed.

Lemma get_df_open_failure_propagates_witness :
  get_df two_files
    [py "data/raw/Brazil_1988.txt"; py "data/raw/Atlantis_0001.txt";
     py "data/raw/USA_1787.txt"]
  = Raise (OSError (py "No such file or directory")).
Proof.
  destruct (get_df_open_failure_propagates two_files
    [py "data/raw/Brazil_1988.txt"; py "data/raw/Atlantis_0001.txt";
     py "data/raw/USA_1787.txt"]) as [path [e [Hin [He [Hr _]]]]].
  - exists (py "data/raw/Atlantis_0001.txt"), (OSError (py "No such file or directory")).
    split; [simpl; auto|reflexivity].
  - rewrite Hr. destruct Hin as [<-|[<-|[<-|[]]]]; vm_compute in He;
      first [discriminate He | inversion He; reflexivity].
Defined.

(** A stray [0xFF] and a three-byte sequence cut after two bytes are
    dropped, and the text around them is kept; the strict decoder raises on
    the same data. *)
Example utf8_decode_ignore_drops :
  utf8_decode Ignore (bytes_of [0x41; 0xFF; 0xC3; 0xA9; 0xE2; 0x82])%N
  = Ok [0x41; 0xE9]%N /\
  utf8_decode Strict (bytes_of [0x41; 0xFF; 0xC3; 0xA9; 0xE2; 0x82])%N
  = Raise UnicodeDecodeError.
Proof. split; reflexivity. Qed.

(** C9: the content of every file is decoded as UTF-8 with errors ignored:
    the decoder has a result on every sequence of bytes, the text of the
    file is that result (after newline translation), and it is the strict
    decoder's text whenever the strict decoder has one.  So with every file
    readable [get_df] returns its table, whatever bytes the files hold. *)
Theorem get_df_lossy_decode fs text_files :
  (forall path, In path text_files ->
     exists data, fs (Path.of_str path) = Ok data) ->
  (exists df, get_df fs text_files = Ok df) /\
  forall path data,
    In path text_files -> fs (Path.of_str path) = Ok data ->
    exists text,
      utf8_decode Ignore data = Ok text /\
      read_text fs (Path.of_str path) Ignore = Ok (translate_newlines text) /\
      forall t, utf8_decode Strict data = Ok t -> t = text.
Proof.
  intros Hfs. split.
  - destruct (get_df_readable fs text_files Hfs) as [texts [_ Hdf]]. eauto.
  - intros path data _ Hd.
    destruct (utf8_decode_ignore_total data) as [text Ht].
    exists text. split; [exact Ht|]. split.
    + unfold read_text. rewrite Hd. simpl. rewrite Ht. reflexivity.
    + intros t Hs. apply utf8_decode_strict_ignore in Hs. congruence.
Qed.

Lemma get_df_lossy_decode_witness :
  get_df damaged_file [py "Brazil_1988.txt"]
  = Ok [ (py "country", [py "Brazil"]); (py "year", [py "1988"]);
         (py "constitution", [[0x41; 0xE9; 0x0A]%N]) ].
Proof.
  destruct (get_df_lossy_decode damaged_file [py "Brazil_1988.txt"])
    as [[df Hdf] _].
  - intros path [<-|[]]. eexists. reflexivity.
  - rewrite Hdf. vm_compute in Hdf. inversion Hdf. reflexivity.
Defined.

(** ** The stem of a file name *)

Lemma rfind_from_notin c s : forall i found,
  ~ In c s -> rfind_from c s i found = found.
Proof.
  induction s as [|x s IH]; simpl; intros i found H; [reflexivity|].
  destruct (N.eqb_spec x c) as [->|_]; [tauto|]. apply IH. tauto.
Qed.

Lemma rfind_from_last c base ext : forall i found,
  ~ In c ext ->
  rfind_from c (base ++ c :: ext) i found = (i + Z.of_nat (List.length base))%Z.
Proof.
  induction base as [|x base IH]; intros i found H.
  - simpl. rewrite N.eqb_refl, rfind_from_notin by assumption. lia.
  - cbn [app rfind_from List.length]. rewrite IH by assumption. lia.
Qed.

Lemma rfind_last c base ext :
  ~ In c ext -> rfind c (base ++ c :: ext) = Z.of_nat (List.length base).
Proof. intros H. unfold rfind. rewrite rfind_from_last by assumption. lia. Qed.

Lemma split_app_sep sep a b :
  split sep (a ++ sep :: b) = removelast (split sep a) ++ last (split sep a) [] :: split sep b.
Proof.
  induction a as [|x a IH].
  - simpl. rewrite N.eqb_refl. reflexivity.
  - cbn [app split]. destruct (N.eqb_spec x sep) as [->|Hx].
    + rewrite IH. pose proof (split_not_nil sep a).
      destruct (split sep a); [congruence|]. reflexivity.
    + rewrite IH. pose proof (split_not_nil sep a) as Hne.
      destruct (split sep a) as [|w ws]; [congruence|].
      destruct ws as [|w' ws]; reflexivity.
Qed.

Lemma filter_last_kept (f : str -> bool) (l : list str) (x : str) :
  f x = true -> last (filter f (l ++ [x])) [] = x.
Proof.
  intros H. rewrite filter_app. simpl. rewrite H. apply last_last.
Qed.

(** The name of a path whose text ends in a file name after a slash, or is
    a file name alone. *)
Lemma name_of_file prefix file :
  prefix = [] \/ (exists d, prefix = d ++ [slash]) ->
  ~ In slash file -> file <> [] -> file <> [dot] ->
  Path.name (Path.of_str (prefix ++ file)) = file.
Proof.
  intros Hp Hs Hne Hdot.
  assert (Hk : Path.keep_part file = true).
  { unfold Path.keep_part.
    destruct (str_eqb_spec file []); [congruence|].
    destruct (str_eqb_spec file [dot]); [congruence|]. reflexivity. }
  unfold Path.name, Path.of_str. cbn [Path.parts].
  destruct Hp as [->|[d ->]].
  - simpl. rewrite (split_no_sep slash file Hs). simpl. rewrite Hk. reflexivity.
  - rewrite <- app_assoc. cbn [app]. rewrite split_app_sep.
    rewrite (split_no_sep slash file Hs).
    change (?a ++ ?b :: [file]) with (a ++ [b] ++ [file]).
    rewrite app_assoc. apply filter_last_kept, Hk.
Qed.

Lemma stem_of_name prefix base ext :
  prefix = [] \/ (exists d, prefix = d ++ [slash]) ->
  base <> [] -> ext <> [] ->
  ~ In slash base -> ~ In slash ext -> ~ In dot ext ->
  Path.stem (Path.of_str (prefix ++ base ++ [dot] ++ ext)) = base.
Proof.
  intros Hp Hb He Hsb Hse Hde. unfold Path.stem.
  rewrite name_of_file; try assumption.
  - cbn [app]. rewrite rfind_last by assumption.
    unfold len. rewrite length_app. cbn [List.length].
    destruct base as [|b base]; [congruence|].
    destruct ext as [|x ext]; [congruence|].
    cbn [List.length].
    destruct (Z.ltb_spec 0 (Z.of_nat (S (List.length base)))); [|lia].
    destruct (Z.ltb_spec (Z.of_nat (S (List.length base)))
                (Z.of_nat (S (List.length base) + S (S (List.length ext))) - 1));
      [|lia].
    cbn [andb]. unfold slice_to.
    destruct (Z.ltb_spec (Z.of_nat (S (List.length base))) 0); [lia|].
    rewrite Z.min_l by (rewrite length_app; cbn [List.length]; lia).
    rewrite Nat2Z.id.
    change (S (List.length base)) with (List.length (b :: base)).
    rewrite firstn_app, Nat.sub_diag, firstn_all. simpl. f_equal. apply app_nil_r.
  - intros H. apply in_app_or in H as [H|H]; [tauto|].
    simpl in H. destruct H as [H|H]; [discriminate H|tauto].
  - destruct base; [congruence|discriminate].
  - destruct base as [|b [|b' base]]; [congruence| |discriminate].
    destruct ext; [congruence|discriminate].
Qed.

(** C10: only the final extension is stripped.  For a file name
    [base.ext], where [ext] has no dot (and [base] may have some), the
    parsed base name is [base]: the year is the last ['_'] segment of
    [base], dots included.  So ["Brazil_1988.tar.gz"] has base name
    ["Brazil_1988.tar"] and year ["1988.tar"]. *)
Theorem get_df_strips_final_extension_only fs prefix base ext data :
  prefix = [] \/ (exists d, prefix = d ++ [slash]) ->
  base <> [] -> ext <> [] ->
  ~ In slash base -> ~ In slash ext -> ~ In dot ext ->
  let path := prefix ++ base ++ [dot] ++ ext in
  fs (Path.of_str path) = Ok data ->
  Path.stem (Path.of_str path) = base /\
  exists year text,
    year_of_stem base = Ok year /\
    get_df fs [path] =
    Ok [ (py "country", [country_of_stem base]); (py "year", [year]);
         (py "constitution", [text]) ].
Proof.
  intros Hp Hb He Hsb Hse Hde path Hd.
  assert (Hstem : Path.stem (Path.of_str path) = base)
    by (apply stem_of_name; assumption).
  split; [exact Hstem|].
  destruct (read_text_ignore_ok fs _ data Hd) as [text Ht].
  exists (year_str base), text. split; [apply year_of_stem_ok|].
  rewrite get_df_eq. simpl. rewrite Ht. simpl. unfold corpus. simpl.
  unfold country_of_path, year_of_path. rewrite Hstem. reflexivity.
Qed.

Lemma get_df_strips_final_extension_only_witness :
  Path.stem (Path.of_str (py "Brazil_1988.tar.gz")) = py "Brazil_1988.tar" /\
  get_df archive_file [py "Brazil_1988.tar.gz"] =
  Ok [ (py "country", [py "Brazil"]); (py "year", [py "1988.tar"]);
       (py "constitution", [py "x"]) ].
Proof.
  destruct (get_df_strips_final_extension_only archive_file
              [] (py "Brazil_1988.tar") (py "gz") (ascii_bytes "x"))
    as [Hstem [year [text [Hy Hdf]]]].
  - left. reflexivity.
  - discriminate.
  - discriminate.
  - vm_compute. intuition discriminate.
  - vm_compute. intuition discriminate.
  - vm_compute. intuition discriminate.
  - reflexivity.
  - split; [exact Hstem|].
    pose proof Hdf as Htext. vm_compute in Hy, Htext.
    inversion Hy; inversion Htext; subst. exact Hdf.
Defined.

(** ** The pipeline of [lemmatization] *)

Lemma traced_bind_result {A B} (m : traced A) (k : A -> traced B) :
  snd (tbind m k) =
  match snd m with
  | Ok a => snd (k a)
  | Raise e => Raise e
  end.
Proof.
  destruct m as [tr [a|e]]; simpl; [|reflexivity].
  destruct (k a). reflexivity.
Qed.

Lemma run_all_app nlp a b :
  run_all nlp (a ++ b) =
  (docs <- run_all nlp a ;; docs' <- run_all nlp b ;; Ok (docs ++ docs')).
Proof.
  induction a as [|t a IH]; simpl.
  - destruct (run_all nlp b); reflexivity.
  - destruct (nlp t); simpl; [|reflexivity]. rewrite IH.
    destruct (run_all nlp a); simpl; [|reflexivity].
    destruct (run_all nlp b); reflexivity.
Qed.

Lemma run_all_ok nlp texts docs :
  run_all nlp texts = Ok docs ->
  Forall2 (fun text doc => nlp text = Ok doc) texts docs.
Proof.
  revert docs. induction texts as [|t rest IH]; simpl; intros docs H.
  - inversion H. constructor.
  - destruct (nlp t) as [doc|] eqn:Ht; simpl in H; [|discriminate].
    destruct (run_all nlp rest) as [ds|]; simpl in H; [|discriminate].
    inversion H. constructor; auto.
Qed.

Lemma pipe_batch_result nlp batch :
  snd (Spacy.pipe_batch nlp batch) = run_all nlp batch.
Proof.
  induction batch as [|t rest IH]; [reflexivity|].
  cbn [Spacy.pipe_batch run_all].
  rewrite !traced_bind_result. cbn [tell lift snd].
  destruct (nlp t) as [doc|e]; [|reflexivity]. cbn [bind].
  rewrite traced_bind_result, IH.
  destruct (run_all nlp rest); reflexivity.
Qed.

Lemma pipe_batches_result nlp batches :
  snd (Spacy.pipe_batches nlp batches) = run_all nlp (concat batches).
Proof.
  induction batches as [|b rest IH]; [reflexivity|].
  cbn [Spacy.pipe_batches concat].
  rewrite run_all_app, !traced_bind_result. cbn [tell snd].
  rewrite pipe_batch_result.
  destruct (run_all nlp b); [|reflexivity]. cbn [bind].
  rewrite traced_bind_result, IH.
  destruct (run_all nlp (concat rest)); reflexivity.
Qed.

(** The batches put end to end are the items: batching loses and reorders
    nothing. *)
Lemma concat_minibatch_le {A : Type} (n m : nat) : forall items : list A,
  List.length items <= m -> concat (Spacy.minibatch (S n) items) = items.
Proof.
  induction m as [|m IH]; intros [|x rest] Hm; simp minibatch;
    try reflexivity; try (simpl in Hm; lia).
  cbn [concat]. rewrite IH.
  - apply firstn_skipn.
  - simpl in *. pose proof (length_skipn n rest). lia.
Qed.

Lemma concat_minibatch {A : Type} (n : nat) (items : list A) :
  concat (Spacy.minibatch (S n) items) = items.
Proof. apply (concat_minibatch_le n (List.length items)). lia. Qed.

Lemma pipe_result nlp texts n :
  snd (Spacy.pipe nlp texts (S n)) = run_all nlp texts.
Proof.
  unfold Spacy.pipe. rewrite pipe_batches_result, concat_minibatch. reflexivity.
Qed.

(** ** [lemmatization] *)

Lemma doc_lemmas_spec lower doc :
  doc_lemmas lower doc = lemmas_of_non_punctuation lower doc.
Proof.
  unfold lemmas_of_non_punctuation.
  induction doc as [|token rest IH]; simpl; [reflexivity|].
  destruct (Spacy.is_punct token); simpl; congruence.
Qed.

Lemma lemmatization_result lower spacy_load texts model :
  snd (lemmatization lower spacy_load texts model) =
  match spacy_load model disabled with
  | Ok nlp => docs <- run_all nlp texts ;; Ok (List.map (doc_lemmas lower) docs)
  | Raise (OSError _) => Raise (OSError (model_not_found model))
  | Raise e => Raise e
  end.
Proof.
  unfold lemmatization. rewrite traced_bind_result. cbn [tell snd].
  fold disabled. destruct (spacy_load model disabled) as [nlp|e].
  - rewrite traced_bind_result, pipe_result.
    destruct (run_all nlp texts); reflexivity.
  - destruct e; reflexivity.
Qed.

(** C2: for texts that the model processes, [lemmatization] gives, for each
    document in turn, the lower-cased lemmas of the tokens that are not
    punctuation, in token order; punctuation tokens are left out. *)
Theorem lemmatization_lemmas lower spacy_load texts model nlp docs :
  spacy_load model disabled = Ok nlp ->
  Forall2 (fun text doc => nlp text = Ok doc) texts docs ->
  snd (lemmatization lower spacy_load texts model) =
  Ok (List.map (lemmas_of_non_punctuation lower) docs).
Proof.
  intros Hload Hdocs. rewrite lemmatization_result, Hload.
  assert (Hrun : run_all nlp texts = Ok docs).
  { induction Hdocs as [|text doc texts docs Ht _ IH]; simpl; [reflexivity|].
    rewrite Ht, IH. reflexivity. }
  rewrite Hrun. simpl. f_equal.
  apply map_ext. intros doc. apply doc_lemmas_spec.
Qed.

Lemma lemmatization_lemmas_witness :
  snd (lemmatization ascii_lower toy_load
         [py "The Constitution."; py "We, the People"] default_model)
  = Ok [ [py "the"; py "constitution"]; [py "we"; py "the"; py "people"] ].
Proof.
  rewrite (lemmatization_lemmas ascii_lower toy_load
             [py "The Constitution."; py "We, the People"] default_model
             toy_nlp
             [toy_tokens [] (py "The Constitution.");
              toy_tokens [] (py "We, the People")]).
  - reflexivity.
  - reflexivity.
  - repeat constructor.
Defined.

(** C4: when [lemmatization] returns, the output has one entry per input
    text, entry [i] being the lemmas of the document of [texts[i]].  A text
    for which the model gives no token (as spaCy does for the empty string)
    has the empty list as its entry: the entry is there. *)
Theorem lemmatization_one_entry_per_text lower spacy_load texts model out :
  snd (lemmatization lower spacy_load texts model) = Ok out ->
  List.length out = List.length texts /\
  exists nlp,
    spacy_load model disabled = Ok nlp /\
    (forall i text,
       nth_error texts i = Some text ->
       exists doc,
         nlp text = Ok doc /\ nth_error out i = Some (doc_lemmas lower doc)) /\
    (nlp [] = Ok [] ->
     (forall i, nth_error texts i = Some [] -> nth_error out i = Some []) /\
     (texts = [[]] -> out = [[]])).
Proof.
  rewrite lemmatization_result.
  destruct (spacy_load model disabled) as [nlp|e];
    [|destruct e; discriminate].
  destruct (run_all nlp texts) as [docs|e] eqn:Hrun; simpl; [|discriminate].
  intros H. inversion H; subst out. clear H.
  apply run_all_ok in Hrun.
  assert (Hnth : forall i text, nth_error texts i = Some text ->
            exists doc, nlp text = Ok doc /\
              nth_error (List.map (doc_lemmas lower) docs) i
              = Some (doc_lemmas lower doc)).
  { induction Hrun as [|t d ts ds Ht _ IH]; intros [|i] text Hi;
      simpl in Hi; try discriminate.
    - inversion Hi; subst. exists d. auto.
    - apply (IH i text Hi). }
  split.
  { rewrite length_map. symmetry. eapply Forall2_length, Hrun. }
  exists nlp. split; [reflexivity|]. split; [exact Hnth|].
  intros Hempty. split.
  - intros i Hi. destruct (Hnth i [] Hi) as [doc [Hd Ho]].
    rewrite Hempty in Hd. inversion Hd; subst. exact Ho.
  - intros ->. destruct (Hnth 0 [] eq_refl) as [doc [Hd Ho]].
    rewrite Hempty in Hd. inversion Hd; subst.
    inversion Hrun as [|? ? ? ? _ Hrest]; subst. inversion Hrest; subst.
    simpl in Ho. inversion Ho. reflexivity.
Qed.

Lemma lemmatization_one_entry_per_text_witness :
  snd (lemmatization ascii_lower toy_load [py ""] default_model) = Ok [[]] /\
  forall out,
    snd (lemmatization ascii_lower toy_load [py "We, the People"; py ""]
           default_model) = Ok out ->
    List.length out = 2 /\ nth_error out 1 = Some [].
Proof.
  split.
  - destruct (lemmatization_one_entry_per_text ascii_lower toy_load
                [py ""] default_model [[]] eq_refl)
      as [_ [nlp [Hload [_ Hempty]]]].
    vm_compute in Hload. inversion Hload; subst nlp. reflexivity.
  - intros out Hout.
    destruct (lemmatization_one_entry_per_text ascii_lower toy_load
                [py "We, the People"; py ""] default_model out Hout)
      as [Hlen [nlp [Hload [_ Hempty]]]].
    split; [exact Hlen|].
    vm_compute in Hload. inversion Hload; subst nlp.
    apply (proj1 (Hempty eq_refl) 1). reflexivity.
Defined.

(** C6, as the code has it: when loading the model raises,
    [lemmatization] raises at once: the only thing that happened is the
    attempt to load, no batch was formed and no document was processed,
    and there is no output.  When spaCy reports the model as not found
    ([OSError]), the exception raised is an [OSError] whose message names
    the model and the command that installs it; any other exception of
    the load is raised as it is. *)
Theorem lemmatization_model_failure lower spacy_load texts model e :
  spacy_load model disabled = Raise e ->
  fst (lemmatization lower spacy_load texts model) = [SpacyLoad model disabled] /\
  (exists e', snd (lemmatization lower spacy_load texts model) = Raise e') /\
  (forall msg, e = OSError msg ->
   snd (lemmatization lower spacy_load texts model) =
   Raise (OSError (py "spaCy model '" ++ model
                   ++ py "' not found. Install with:" ++ [10%N]
                   ++ py "python -m spacy download " ++ model))) /\
  ((forall msg, e <> OSError msg) ->
   snd (lemmatization lower spacy_load texts model) = Raise e).
Proof.
  intros Hload. unfold lemmatization. fold disabled. rewrite Hload.
  destruct e; simpl; (split; [reflexivity|]); (split; [eauto|]);
    (split; [intros msg' H; inversion H; reflexivity|]);
    intros Hne; try reflexivity.
  exfalso. exact (Hne msg eq_refl).
Qed.

Lemma lemmatization_model_failure_witness :
  lemmatization ascii_lower toy_load [py "We the People"] (py "xx_missing")
  = ([SpacyLoad (py "xx_missing") disabled],
     Raise (OSError (py "spaCy model 'xx_missing' not found. Install with:"
                     ++ [10%N] ++ py "python -m spacy download xx_missing"))).
Proof.
  destruct (lemmatization_model_failure ascii_lower toy_load
              [py "We the People"] (py "xx_missing")
              (OSError (py "[E050] Cannot find model")) eq_refl)
    as [Htrace [_ [Hmsg _]]].
  specialize (Hmsg _ eq_refl).
  destruct (lemmatization ascii_lower toy_load [py "We the People"]
              (py "xx_missing")) as [tr r].
  simpl in Htrace, Hmsg. subst tr r. reflexivity.
Defined.

(** C6, as the claim has it, fails: a load that raises something other
    than [OSError] (here the [ValueError] of a pipeline whose
    configuration cannot be read) goes through as it is, and its message
    names neither the model nor the command that installs it. *)
Lemma lemmatization_load_failure_passes_through :
  broken_load default_model disabled
  = Raise (ValueError (py "[E002] Cannot find factory")) /\
  lemmatization ascii_lower broken_load [py "We the People"] default_model
  = ([SpacyLoad default_model disabled],
     Raise (ValueError (py "[E002] Cannot find factory"))) /\
  snd (lemmatization ascii_lower broken_load [py "We the People"] default_model)
  <> Raise (OSError (model_not_found default_model)).
Proof. split; [reflexivity|]. split; [reflexivity|discriminate]. Qed.

(** ** [save_parquet] *)

Lemma suffix_of_name prefix base ext :
  prefix = [] \/ (exists d, prefix = d ++ [slash]) ->
  base <> [] -> ext <> [] ->
  ~ In slash base -> ~ In slash ext -> ~ In dot ext ->
  Path.suffix (Path.of_str (prefix ++ base ++ [dot] ++ ext)) = dot :: ext.
Proof.
  intros Hp Hb He Hsb Hse Hde. unfold Path.suffix.
  rewrite name_of_file; try assumption.
  - cbn [app]. rewrite rfind_last by assumption.
    unfold len. rewrite length_app. cbn [List.length].
    destruct base as [|b base]; [congruence|].
    destruct ext as [|x ext]; [congruence|].
    cbn [List.length].
    destruct (Z.ltb_spec 0 (Z.of_nat (S (List.length base)))); [|lia].
    destruct (Z.ltb_spec (Z.of_nat (S (List.length base)))
                (Z.of_nat (S (List.length base) + S (S (List.length ext))) - 1));
      [|lia].
    cbn [andb]. unfold slice_from. rewrite Nat2Z.id.
    change (S (List.length base)) with (List.length (b :: base)).
    rewrite skipn_app, Nat.sub_diag, skipn_all. reflexivity.
  - intros H. apply in_app_or in H as [H|H]; [tauto|].
    simpl in H. destruct H as [H|H]; [discriminate H|tauto].
  - destruct base; [congruence|discriminate].
  - destruct base as [|b [|b' base]]; [congruence| |discriminate].
    destruct ext; [congruence|discriminate].
Qed.

(** With the extension [.parquet] the table is handed to the writer. *)
Example save_parquet_writes df :
  save_parquet (fun _ _ => Ok tt) df (py "out/x.parquet")
  = ([ToParquet (Path.of_str (py "out/x.parquet")) df;
      LogInfo (py "Saved Parquet file: out/x.parquet")], Ok tt).
Proof. reflexivity. Qed.

(** A file name [base.ext] with [ext] other than [parquet] is rejected. *)
Lemma save_parquet_rejects_name to_parquet df prefix base ext :
  prefix = [] \/ (exists d, prefix = d ++ [slash]) ->
  base <> [] -> ext <> [] ->
  ~ In slash base -> ~ In slash ext -> ~ In dot ext ->
  ext <> py "parquet" ->
  save_parquet to_parquet df (prefix ++ base ++ [dot] ++ ext)
  = ([], Raise (ValueError (py "Output path must end with .parquet extension"))).
Proof.
  intros Hp Hb He Hsb Hse Hde Hext. unfold save_parquet.
  rewrite suffix_of_name by assumption.
  destruct (str_eqb_spec (dot :: ext) (py ".parquet")) as [E|_]; [|reflexivity].
  change (py ".parquet") with (dot :: py "parquet") in E.
  exfalso. apply Hext. congruence.
Qed.

(** C8: for every output path whose extension is not [.parquet],
    [save_parquet] raises a [ValueError]; nothing was handed to the writer
    and nothing was logged when it does.  So saving to ["x.csv"] fails. *)
Theorem save_parquet_rejects_other_extensions to_parquet df path :
  Path.suffix (Path.of_str path) <> py ".parquet" ->
  save_parquet to_parquet df path
  = ([], Raise (ValueError (py "Output path must end with .parquet extension"))).
Proof.
  intros H. unfold save_parquet.
  destruct (str_eqb_spec (Path.suffix (Path.of_str path)) (py ".parquet"));
    [contradiction|reflexivity].
Qed.

Lemma save_parquet_rejects_other_extensions_witness :
  save_parquet (fun _ _ => Ok tt) [(py "country", [py "Brazil"])] (py "x.csv")
  = ([], Raise (ValueError (py "Output path must end with .parquet extension"))).
Proof.
  apply (save_parquet_rejects_other_extensions (fun _ _ => Ok tt)
           [(py "country", [py "Brazil"])] (py "x.csv")).
  vm_compute. discriminate.
Defined.

(** * Further properties *)

(** ** [get_df] over lists and failures *)

Lemma read_all_app fs a b :
  read_all fs (a ++ b) =
  (ta <- read_all fs a ;; tb <- read_all fs b ;; Ok (ta ++ tb)).
Proof.
  induction a as [|p a IH]; simpl.
  - destruct (read_all fs b); reflexivity.
  - destruct (read_text fs p Ignore); simpl; [|reflexivity]. rewrite IH.
    destruct (read_all fs a); simpl; [|reflexivity].
    destruct (read_all fs b); reflexivity.
Qed.

(** X1: [get_df] on a concatenated list is the two tables put one after
    the other, column by column; it raises what the first part raises,
    or else what the second part raises. *)
Theorem get_df_app fs a b :
  get_df fs (a ++ b) =
  (ta <- get_df fs a ;; tb <- get_df fs b ;; Ok (append_rows ta tb)).
Proof.
  rewrite !get_df_eq, map_app, read_all_app.
  destruct (read_all fs (List.map Path.of_str a)) as [ta|e]; simpl;
    [|reflexivity].
  destruct (read_all fs (List.map Path.of_str b)) as [tb|e]; simpl;
    [|reflexivity].
  unfold corpus, append_rows. simpl. rewrite !map_app. reflexivity.
Qed.

(** X2: the exception raised is that of the first file, in list order,
    that cannot be opened. *)
Theorem get_df_first_failure fs pre path post e :
  (forall p, In p pre -> exists data, fs (Path.of_str p) = Ok data) ->
  fs (Path.of_str path) = Raise e ->
  get_df fs (pre ++ path :: post) = Raise e.
Proof.
  intros Hpre He. rewrite get_df_app.
  destruct (get_df_readable fs pre Hpre) as [texts [_ ->]]. simpl.
  rewrite get_df_eq. simpl. unfold read_text. rewrite He. reflexivity.
Qed.

Lemma get_df_first_failure_witness :
  get_df (fs_of [ (py "Brazil_1988.txt", ascii_bytes "a") ])
    [py "Brazil_1988.txt"; py "Atlantis_0001.txt"; py "Lemuria_0002.txt"]
  = Raise (OSError (py "No such file or directory")).
Proof.
  apply (get_df_first_failure (fs_of [ (py "Brazil_1988.txt", ascii_bytes "a") ])
           [py "Brazil_1988.txt"] (py "Atlantis_0001.txt")
           [py "Lemuria_0002.txt"]).
  - intros p [<-|[]]. eexists. reflexivity.
  - reflexivity.
Defined.

(** ** What the metadata depend on *)

Lemma rfind_notin c s : ~ In c s -> rfind c s = (-1)%Z.
Proof. intros H. unfold rfind. apply rfind_from_notin, H. Qed.

Lemma in_join c sep parts :
  In c (join sep parts) -> In c sep \/ exists w, In w parts /\ In c w.
Proof.
  induction parts as [|w [|w' ws] IH]; intros H.
  - destruct H.
  - right. exists w. simpl in *. auto.
  - change (join sep (w :: w' :: ws)) with (w ++ sep ++ join sep (w' :: ws)) in H.
    apply in_app_or in H as [H|H]; [right; exists w; simpl; auto|].
    apply in_app_or in H as [H|H]; [left; exact H|].
    destruct (IH H) as [Hs|[x [Hx Hc]]]; [left; exact Hs|].
    right. exists x. split; [right; exact Hx|exact Hc].
Qed.

Lemma in_split_piece c sep s w :
  In w (split sep s) -> In c w -> In c s.
Proof.
  revert w. induction s as [|x s IH]; simpl; intros w Hw Hc.
  - destruct Hw as [<-|[]]. destruct Hc.
  - destruct (N.eqb_spec x sep) as [->|_].
    + destruct Hw as [<-|Hw]; [destruct Hc|]. right. eapply IH; eauto.
    + destruct (split sep s) as [|v vs].
      * destruct Hw as [<-|[]]. destruct Hc as [<-|[]]. auto.
      * destruct Hw as [<-|Hw].
        -- destruct Hc as [<-|Hc]; [auto|]. right. apply (IH v); simpl; auto.
        -- right. apply (IH w); simpl; auto.
Qed.

Lemma name_no_slash s : ~ In slash (Path.name (Path.of_str s)).
Proof.
  unfold Path.name, Path.of_str. cbn [Path.parts].
  destruct (filter Path.keep_part (split slash s)) as [|w ws] eqn:Hf;
    [simpl; tauto|].
  assert (Hin : In (last (w :: ws) []) (filter Path.keep_part (split slash s))).
  { rewrite Hf. destruct (exists_last (l:=w :: ws) ltac:(discriminate))
      as [l' [a E]]. rewrite E, last_last. apply in_or_app. simpl. auto. }
  apply filter_In in Hin as [Hin _].
  pose proof (split_pieces slash s) as Hall.
  rewrite Forall_forall in Hall. apply Hall, Hin.
Qed.

Lemma in_stem_name c p : In c (Path.stem p) -> In c (Path.name p).
Proof.
  unfold Path.stem.
  destruct ((0 <? rfind dot (Path.name p))
            && (rfind dot (Path.name p) <? len (Path.name p) - 1))%Z;
    [|auto].
  unfold slice_to. intros H.
  rewrite <- (firstn_skipn
    (Z.to_nat (if (rfind dot (Path.name p) <? 0)%Z
               then Z.max 0 (rfind dot (Path.name p)
                             + Z.of_nat (List.length (Path.name p)))
               else Z.min (rfind dot (Path.name p))
                          (Z.of_nat (List.length (Path.name p)))))
    (Path.name p)).
  apply in_or_app. left. exact H.
Qed.

(** X3: country and year depend on the last component of the path only:
    the directories before it, whatever their names, change nothing. *)
Theorem get_df_metadata_ignore_directories directory file :
  ~ In slash file -> file <> [] -> file <> [dot] ->
  let stem := Path.stem (Path.of_str (directory ++ [slash] ++ file)) in
  stem = Path.stem (Path.of_str file) /\
  country_of_stem stem = country_of_stem (Path.stem (Path.of_str file)) /\
  year_of_stem stem = year_of_stem (Path.stem (Path.of_str file)).
Proof.
  intros Hs Hne Hdot stem.
  assert (E : stem = Path.stem (Path.of_str file)).
  { unfold stem, Path.stem. rewrite app_assoc.
    rewrite (name_of_file (directory ++ [slash]) file) by eauto.
    pose proof (name_of_file [] file (or_introl eq_refl) Hs Hne Hdot) as E0.
    cbn [app] in E0. rewrite E0. reflexivity. }
  rewrite E. auto.
Qed.

Lemma get_df_metadata_ignore_directories_witness :
  country_of_stem
    (Path.stem (Path.of_str (py "raw_data/south_america" ++ [slash]
                             ++ py "Brazil_1988.txt")))
  = py "Brazil".
Proof.
  destruct (get_df_metadata_ignore_directories (py "raw_data/south_america")
              (py "Brazil_1988.txt")) as [_ [Hc _]].
  - vm_compute. intuition discriminate.
  - discriminate.
  - discriminate.
  - rewrite Hc. reflexivity.
Defined.

Lemma no_slash_join (segs : list str) :
  Forall (fun w => ~ In slash w) segs -> ~ In slash (join [underscore] segs).
Proof.
  intros Hall H. apply in_join in H as [H|[w [Hw Hc]]].
  - simpl in H. destruct H as [H|[]]. discriminate H.
  - rewrite Forall_forall in Hall. exact (Hall w Hw Hc).
Qed.

Lemma get_df_single_of_name fs prefix base ext data :
  prefix = [] \/ (exists d, prefix = d ++ [slash]) ->
  base <> [] -> ext <> [] ->
  ~ In slash base -> ~ In slash ext -> ~ In dot ext ->
  fs (Path.of_str (prefix ++ base ++ [dot] ++ ext)) = Ok data ->
  exists text,
    get_df fs [prefix ++ base ++ [dot] ++ ext] =
    Ok [ (py "country", [country_of_stem base]); (py "year", [year_str base]);
         (py "constitution", [text]) ].
Proof.
  intros Hp Hb He Hsb Hse Hde Hd.
  destruct (read_text_ignore_ok fs _ data Hd) as [text Ht].
  pose proof (stem_of_name prefix base ext Hp Hb He Hsb Hse Hde) as Hstem.
  remember (prefix ++ base ++ [dot] ++ ext) as path eqn:Hpath.
  exists text. rewrite get_df_eq. simpl. rewrite Ht. simpl.
  unfold corpus, country_of_path, year_of_path. simpl.
  rewrite Hstem. reflexivity.
Qed.

(** X4: the naming convention read back.  A file named after the words of
    a country and a year, joined by ['_'] and followed by an extension,
    gives the words joined by spaces as country and the year as year,
    provided no word has a ['_'] or a ['/'] in it. *)
Theorem get_df_naming_convention fs prefix words year ext data :
  prefix = [] \/ (exists d, prefix = d ++ [slash]) ->
  Forall (fun w => ~ In underscore w) (words ++ [year]) ->
  Forall (fun w => ~ In slash w) (words ++ [year]) ->
  join [underscore] (words ++ [year]) <> [] ->
  ext <> [] -> ~ In slash ext -> ~ In dot ext ->
  let path := prefix ++ join [underscore] (words ++ [year]) ++ [dot] ++ ext in
  fs (Path.of_str path) = Ok data ->
  exists text,
    get_df fs [path] =
    Ok [ (py "country", [join (py " ") words]); (py "year", [year]);
         (py "constitution", [text]) ].
Proof.
  intros Hp Hu Hs Hne He Hse Hde path Hd.
  destruct (get_df_single_of_name fs prefix
              (join [underscore] (words ++ [year])) ext data)
    as [text Hdf]; try assumption.
  { apply no_slash_join, Hs. }
  exists text. fold path in Hdf. rewrite Hdf.
  unfold country_of_stem, year_str.
  rewrite split_join by (try assumption; destruct words; discriminate).
  rewrite slice_to_minus1, removelast_last, last_last. reflexivity.
Qed.

Lemma get_df_naming_convention_witness :
  get_df (fs_of [ (py "data/South_Africa_1996.txt", ascii_bytes "We") ])
    [py "data/South_Africa_1996.txt"]
  = Ok [ (py "country", [py "South Africa"]); (py "year", [py "1996"]);
         (py "constitution", [py "We"]) ].
Proof.
  destruct (get_df_naming_convention
              (fs_of [ (py "data/South_Africa_1996.txt", ascii_bytes "We") ])
              (py "data/") [py "South"; py "Africa"] (py "1996") (py "txt")
              (ascii_bytes "We")) as [text Hdf].
  - right. exists (py "data"). reflexivity.
  - repeat constructor; vm_compute; intuition discriminate.
  - repeat constructor; vm_compute; intuition discriminate.
  - discriminate.
  - discriminate.
  - vm_compute. intuition discriminate.
  - vm_compute. intuition discriminate.
  - reflexivity.
  - pose proof Hdf as Htext. vm_compute in Htext. inversion Htext; subst.
    exact Hdf.
Defined.

(** X5: in every table of [get_df], no year and no country has a ['_'] or
    a ['/'] in it. *)
Theorem get_df_metadata_separator_free fs text_files df countries years :
  get_df fs text_files = Ok df ->
  DataFrame.column df (py "country") = Some countries ->
  DataFrame.column df (py "year") = Some years ->
  Forall (fun v => ~ In underscore v /\ ~ In slash v) countries /\
  Forall (fun v => ~ In underscore v /\ ~ In slash v) years.
Proof.
  intros H Hc Hy. apply get_df_ok_inv in H as [texts [_ ->]].
  change (DataFrame.column (corpus (List.map Path.of_str text_files) texts)
            (py "country"))
    with (Some (List.map country_of_path (List.map Path.of_str text_files))) in Hc.
  change (DataFrame.column (corpus (List.map Path.of_str text_files) texts)
            (py "year"))
    with (Some (List.map year_of_path (List.map Path.of_str text_files))) in Hy.
  inversion Hc; inversion Hy; subst. clear Hc Hy.
  assert (Hpiece : forall s w, In w (split underscore (Path.stem (Path.of_str s))) ->
            ~ In underscore w /\ ~ In slash w).
  { intros s w Hw. split.
    - pose proof (split_pieces underscore (Path.stem (Path.of_str s))) as Hall.
      rewrite Forall_forall in Hall. exact (Hall w Hw).
    - intros Hc. apply (name_no_slash s), in_stem_name.
      eapply in_split_piece; eauto. }
  split; rewrite Forall_forall; intros v Hv;
    apply in_map_iff in Hv as [p [<- Hp]];
    apply in_map_iff in Hp as [s [<- _]].
  - unfold country_of_path. rewrite country_of_stem_eq.
    assert (Hparts : forall w,
              In w (removelast (split underscore (Path.stem (Path.of_str s)))) ->
              ~ In underscore w /\ ~ In slash w).
    { intros w Hw. apply (Hpiece s). rewrite split_segments.
      apply in_or_app. left. exact Hw. }
    split; intros Hin; apply in_join in Hin as [Hin|[w [Hw Hcw]]];
      try (simpl in Hin; destruct Hin as [Hin|[]]; discriminate Hin);
      destruct (Hparts w Hw); tauto.
  - unfold year_of_path. apply (Hpiece s). rewrite split_segments at 1.
    apply in_or_app. right. simpl. auto.
Qed.

Lemma get_df_metadata_separator_free_witness :
  Forall (fun v => ~ In underscore v /\ ~ In slash v)
         [py "Brazil"; py "South Africa"; py ""].
Proof.
  apply (get_df_metadata_separator_free three_files
    [py "Brazil_1988.txt"; py "South_Africa_1996.txt"; py "Nowhereland.txt"]
    _ _ [py "1988"; py "1996"; py "Nowhereland"] eq_refl eq_refl eq_refl).
Defined.

(** X6: a file name without an extension is parsed whole.  When the name
    has no dot, or its only dot is its first character, or its last
    character is a dot, nothing is stripped: the year is the last ['_']
    segment of the whole name. *)
Theorem get_df_name_without_extension prefix name :
  prefix = [] \/ (exists d, prefix = d ++ [slash]) ->
  ~ In slash name -> name <> [] -> name <> [dot] ->
  ~ In dot name
  \/ (exists rest, name = dot :: rest /\ ~ In dot rest)
  \/ (exists base, name = base ++ [dot]) ->
  Path.stem (Path.of_str (prefix ++ name)) = name /\
  year_of_stem (Path.stem (Path.of_str (prefix ++ name)))
  = Ok (last (split underscore name) []).
Proof.
  intros Hp Hs Hne Hd Hshape.
  assert (E : Path.stem (Path.of_str (prefix ++ name)) = name).
  { unfold Path.stem. rewrite name_of_file by assumption.
    destruct Hshape as [Hno|[[rest [-> Hno]]|[base ->]]].
    - rewrite rfind_notin by assumption. reflexivity.
    - pose proof (rfind_last dot [] rest Hno) as E0. cbn [app] in E0.
      rewrite E0. reflexivity.
    - rewrite (rfind_last dot base [] (fun H => H)).
      unfold len. rewrite length_app. cbn [List.length].
      destruct (Z.ltb_spec (Z.of_nat (List.length base))
                  (Z.of_nat (List.length base + 1) - 1)); [lia|].
      rewrite andb_false_r. reflexivity. }
  rewrite E. split; [reflexivity|apply year_of_stem_ok].
Qed.

Lemma get_df_name_without_extension_witness :
  year_of_stem (Path.stem (Path.of_str (py "data/Brazil_1988.")))
  = Ok (py "1988.").
Proof.
  destruct (get_df_name_without_extension (py "data/") (py "Brazil_1988."))
    as [_ Hy].
  - right. exists (py "data"). reflexivity.
  - vm_compute. intuition discriminate.
  - discriminate.
  - discriminate.
  - right. right. exists (py "Brazil_1988"). reflexivity.
  - exact Hy.
Defined.

(** ** What the decoded text is made of *)

Lemma continuation_byte_range (b : byte) :
  is_continuation_byte (Byte.to_N b) = true ->
  (0x80 <= Byte.to_N b < 0xC0)%N.
Proof. destruct b; vm_compute; intros H; try discriminate H; split; congruence. Qed.

Lemma shiftl_6 n : N.shiftl n 6 = (n * 64)%N.
Proof. rewrite N.shiftl_mul_pow2. reflexivity. Qed.
Lemma shiftl_12 n : N.shiftl n 12 = (n * 4096)%N.
Proof. rewrite N.shiftl_mul_pow2. reflexivity. Qed.
Lemma shiftl_18 n : N.shiftl n 18 = (n * 262144)%N.
Proof. rewrite N.shiftl_mul_pow2. reflexivity. Qed.

Lemma emit_scalar ch k t :
  scalar_value ch -> (forall t', k = Ok t' -> Forall scalar_value t') ->
  emit ch k = Ok t -> Forall scalar_value t.
Proof.
  intros Hch Hk H. apply emit_inv in H as [t' [E ->]]. constructor; auto.
Qed.

Lemma decode_error_scalar errors k t :
  (forall t', k = Ok t' -> Forall scalar_value t') ->
  decode_error errors k = Ok t -> Forall scalar_value t.
Proof.
  intros Hk. destruct errors; simpl; [discriminate|auto|].
  destruct k as [t'|e]; simpl; intros H; inversion H.
  constructor; [|auto]. unfold scalar_value. lia.
Qed.

Ltac byte_facts :=
  repeat match goal with
    | H : negb _ = false |- _ => apply negb_false_iff in H
    | H : negb _ = true |- _ => apply negb_true_iff in H
    | H : (_ || _) = false |- _ => apply orb_false_iff in H as [? ?]
    | H : is_continuation_byte (Byte.to_N _) = true |- _ =>
        apply continuation_byte_range in H
    | H : (_ <? _)%N = true |- _ => apply N.ltb_lt in H
    | H : (_ <? _)%N = false |- _ => apply N.ltb_ge in H
    | H : (_ =? _)%N = true |- _ => apply N.eqb_eq in H
    | H : (_ =? _)%N = false |- _ => apply N.eqb_neq in H
    | H : (if ?b then _ else _) = false |- _ => destruct b eqn:?
    end.

(** Whatever the error handler, the decoder gives Unicode scalar values:
    nothing above U+10FFFF and no surrogate. *)
Lemma utf8_decode_scalar_le (errors : error_handler) (n : nat) :
  forall data text,
    List.length data <= n ->
    utf8_decode errors data = Ok text -> Forall scalar_value text.
Proof.
  induction n as [|n IH]; intros data text Hn.
  - destruct data; [simpl; intros H; inversion H; constructor|simpl in Hn; lia].
  - destruct data as [|c s1];
      [simpl; intros H; inversion H; constructor|].
    simpl in Hn.
    assert (H0 : forall t, Ok [] = Ok t -> Forall scalar_value t)
      by (intros t H; inversion H; constructor).
    assert (H1 : forall t, utf8_decode errors s1 = Ok t -> Forall scalar_value t)
      by (intros; eapply IH; [|eauto]; lia).
    assert (H2 : forall c2 s2 t, s1 = c2 :: s2 ->
                 utf8_decode errors s2 = Ok t -> Forall scalar_value t)
      by (intros ? ? ? -> ?; eapply IH; [|eauto]; simpl in Hn; lia).
    assert (H3 : forall c2 c3 s3 t, s1 = c2 :: c3 :: s3 ->
                 utf8_decode errors s3 = Ok t -> Forall scalar_value t)
      by (intros ? ? ? ? -> ?; eapply IH; [|eauto]; simpl in Hn; lia).
    assert (H4 : forall c2 c3 c4 s4 t, s1 = c2 :: c3 :: c4 :: s4 ->
                 utf8_decode errors s4 = Ok t -> Forall scalar_value t)
      by (intros ? ? ? ? ? -> ?; eapply IH; [|eauto]; simpl in Hn; lia).
    cbn [utf8_decode]. cbv zeta.
    repeat match goal with
      | |- decode_error _ _ = Ok _ -> _ =>
          apply decode_error_scalar;
          first [ exact H0 | exact H1
                | intros ?; eapply H2; reflexivity
                | intros ?; eapply H3; reflexivity
                | intros ?; eapply H4; reflexivity ]
      | |- emit _ _ = Ok _ -> _ =>
          apply emit_scalar;
          [ byte_facts; unfold scalar_value;
            rewrite ?shiftl_6, ?shiftl_12, ?shiftl_18;
            change (192 * 64)%N with 12288%N;
            change (224 * 4096)%N with 917504%N;
            change (128 * 64)%N with 8192%N;
            change (240 * 262144)%N with 62914560%N;
            change (128 * 4096)%N with 524288%N;
            lia
          | first [ exact H1
                  | intros ?; eapply H2; reflexivity
                  | intros ?; eapply H3; reflexivity
                  | intros ?; eapply H4; reflexivity ] ]
      | |- context [if ?b then _ else _] => destruct b eqn:?
      | |- context [match ?l with [] => _ | _ :: _ => _ end] =>
          is_var l; destruct l
      end.
Qed.

Lemma translate_newlines_le (P : char -> Prop) (n : nat) : forall s,
  List.length s <= n -> P 10%N -> Forall P s ->
  Forall (fun c => c <> 13%N /\ P c) (translate_newlines s).
Proof.
  induction n as [|n IH]; intros [|c s] Hn H10 Hs; simpl in *;
    try constructor; try lia.
  - inversion Hs as [|? ? Hc Hs']; subst.
    destruct (N.eqb_spec c 13) as [->|Hc13].
    + destruct s as [|c' s'].
      * constructor; [split; [discriminate|exact H10]|constructor].
      * inversion Hs' as [|? ? _ Hs'']; subst.
        destruct (N.eqb c' 10);
          (constructor; [split; [discriminate|exact H10]|]);
          apply IH; simpl in *; auto; lia.
    + constructor; [auto|]. apply IH; auto; lia.
Qed.

Lemma read_text_chars fs p errors text :
  read_text fs p errors = Ok text ->
  Forall (fun c => c <> 13%N /\ scalar_value c) text.
Proof.
  unfold read_text. destruct (fs p) as [data|]; simpl; [|discriminate].
  destruct (utf8_decode errors data) as [t|] eqn:Hd; simpl; [|discriminate].
  intros H. inversion H; subst.
  apply (translate_newlines_le scalar_value (List.length t)); [lia| |].
  - unfold scalar_value. lia.
  - eapply utf8_decode_scalar_le; [|exact Hd]. apply Nat.le_refl.
Qed.

Lemma read_all_chars fs paths texts :
  read_all fs paths = Ok texts ->
  Forall (Forall (fun c => c <> 13%N /\ scalar_value c)) texts.
Proof.
  revert texts. induction paths as [|p rest IH]; simpl; intros texts H.
  - inversion H. constructor.
  - destruct (read_text fs p Ignore) as [t|] eqn:Ht; simpl in H; [|discriminate].
    destruct (read_all fs rest) as [ts|]; simpl in H; [|discriminate].
    inversion H; subst. constructor; [|auto].
    eapply read_text_chars, Ht.
Qed.

(** X7: whatever bytes the files hold, every character of every text in
    the table is a Unicode scalar value (at most U+10FFFF and no
    surrogate), and no text has a carriage return: line ends are ['\n']. *)
Theorem get_df_text_characters fs text_files df texts :
  get_df fs text_files = Ok df ->
  DataFrame.column df (py "constitution") = Some texts ->
  Forall (Forall (fun c => c <> 13%N /\ scalar_value c)) texts.
Proof.
  intros H Hc. apply get_df_ok_inv in H as [ts [Hr ->]].
  change (DataFrame.column (corpus (List.map Path.of_str text_files) ts)
            (py "constitution")) with (Some ts) in Hc.
  inversion Hc; subst. eapply read_all_chars, Hr.
Qed.

Lemma get_df_text_characters_witness :
  Forall (Forall (fun c => c <> 13%N /\ scalar_value c)) [[0x41; 0xE9; 0x0A]%N].
Proof.
  apply (get_df_text_characters damaged_file [py "Brazil_1988.txt"]
           _ _ eq_refl eq_refl).
Defined.

Lemma utf8_decode_ascii errors data :
  Forall is_ascii data ->
  utf8_decode errors data = Ok (List.map Byte.to_N data).
Proof.
  induction 1 as [|b data Hb _ IH]; [reflexivity|].
  cbn [utf8_decode List.map]. cbv zeta.
  unfold is_ascii in Hb. apply N.ltb_lt in Hb. rewrite Hb, IH. reflexivity.
Qed.

(** X8: a file of ASCII bytes is read as it is, byte for character, but
    for the line ends.  Without carriage returns the text is the bytes. *)
Theorem get_df_ascii_verbatim fs path data :
  fs (Path.of_str path) = Ok data ->
  Forall is_ascii data ->
  exists df,
    get_df fs [path] = Ok df /\
    DataFrame.column df (py "constitution")
    = Some [translate_newlines (List.map Byte.to_N data)] /\
    (~ In 13%N (List.map Byte.to_N data) ->
     DataFrame.column df (py "constitution") = Some [List.map Byte.to_N data]).
Proof.
  intros Hd Ha. eexists. split.
  - rewrite get_df_eq. simpl. unfold read_text. rewrite Hd. simpl.
    rewrite (utf8_decode_ascii Ignore data Ha). simpl. reflexivity.
  - split; [reflexivity|]. intros Hcr.
    change (DataFrame.column _ (py "constitution"))
      with (Some [translate_newlines (List.map Byte.to_N data)]).
    do 2 f_equal.
    induction (List.map Byte.to_N data) as [|c s IH]; [reflexivity|].
    simpl. destruct (N.eqb_spec c 13) as [->|_]; [simpl in Hcr; tauto|].
    rewrite IH by (simpl in Hcr; tauto). reflexivity.
Qed.

Lemma get_df_ascii_verbatim_witness :
  exists df,
    get_df two_files [py "data/raw/USA_1787.txt"] = Ok df /\
    DataFrame.column df (py "constitution") = Some [py "We the People"].
Proof.
  destruct (get_df_ascii_verbatim two_files (py "data/raw/USA_1787.txt")
              (ascii_bytes "We the People") eq_refl) as [df [Hdf [_ Hc]]].
  - repeat constructor; vm_compute; reflexivity.
  - exists df. split; [exact Hdf|]. apply Hc.
    vm_compute. intuition discriminate.
Defined.

(** ** [lemmatization]: composition, trace and failures *)

(** X9: lemmatizing a concatenated list gives the two outputs one after
    the other; it raises what the first part raises, or else what the
    second part raises. *)
Theorem lemmatization_app lower spacy_load a b model :
  snd (lemmatization lower spacy_load (a ++ b) model) =
  (out <- snd (lemmatization lower spacy_load a model) ;;
   out' <- snd (lemmatization lower spacy_load b model) ;;
   Ok (out ++ out')).
Proof.
  rewrite !lemmatization_result.
  destruct (spacy_load model disabled) as [nlp|e].
  - rewrite run_all_app.
    destruct (run_all nlp a) as [da|]; simpl; [|reflexivity].
    destruct (run_all nlp b) as [db|]; simpl; [|reflexivity].
    rewrite map_app. reflexivity.
  - destruct e; reflexivity.
Qed.

Lemma traced_bind_trace {A B} (m : traced A) (k : A -> traced B) :
  fst (tbind m k) =
  fst m ++ match snd m with
           | Ok a => fst (k a)
           | Raise _ => []
           end.
Proof.
  destruct m as [tr [a|e]]; simpl; [|symmetry; apply app_nil_r].
  destruct (k a). reflexivity.
Qed.

Lemma minibatch_sizes {A : Type} (n m : nat) : forall items : list A,
  List.length items <= m ->
  Forall (fun batch => 1 <= List.length batch <= S n)
         (Spacy.minibatch (S n) items).
Proof.
  induction m as [|m IH]; intros [|x rest] Hm; simp minibatch;
    try constructor; try (simpl in Hm; lia).
  - rewrite length_firstn. simpl. lia.
  - apply IH. simpl in *. pose proof (length_skipn n rest). lia.
Qed.

Lemma pipe_batch_trace_cons nlp text rest :
  fst (Spacy.pipe_batch nlp (text :: rest)) =
  PipeDoc text :: match nlp text with
                  | Ok _ => fst (Spacy.pipe_batch nlp rest)
                  | Raise _ => []
                  end.
Proof.
  cbn [Spacy.pipe_batch]. unfold tell, lift. cbn [tbind].
  destruct (nlp text) as [doc|e]; [|reflexivity].
  destruct (Spacy.pipe_batch nlp rest) as [tr [ds|e]]; simpl;
    rewrite ?app_nil_r; reflexivity.
Qed.

Lemma pipe_batches_trace_cons nlp batch rest :
  fst (Spacy.pipe_batches nlp (batch :: rest)) =
  PipeBatch (List.length batch)
    :: fst (Spacy.pipe_batch nlp batch)
    ++ match snd (Spacy.pipe_batch nlp batch) with
       | Ok _ => fst (Spacy.pipe_batches nlp rest)
       | Raise _ => []
       end.
Proof.
  cbn [Spacy.pipe_batches]. unfold tell. cbn [tbind].
  destruct (Spacy.pipe_batch nlp batch) as [tr [ds|e]]; simpl;
    [|rewrite app_nil_r; reflexivity].
  destruct (Spacy.pipe_batches nlp rest) as [tr' [ds'|e]]; simpl;
    rewrite ?app_nil_r; reflexivity.
Qed.

Lemma pipe_batch_ok_trace nlp batch docs :
  run_all nlp batch = Ok docs ->
  fst (Spacy.pipe_batch nlp batch) = List.map PipeDoc batch.
Proof.
  revert docs. induction batch as [|t rest IH]; intros docs H; [reflexivity|].
  rewrite pipe_batch_trace_cons. cbn [run_all List.map] in *.
  destruct (nlp t) as [doc|]; [|discriminate]. cbn [bind] in H.
  destruct (run_all nlp rest) as [ds|] eqn:Hr; [|discriminate].
  rewrite (IH ds eq_refl). reflexivity.
Qed.

Lemma pipe_batches_ok_trace nlp batches docs :
  run_all nlp (concat batches) = Ok docs ->
  fst (Spacy.pipe_batches nlp batches) = batch_events batches.
Proof.
  revert docs. induction batches as [|b rest IH]; intros docs H; [reflexivity|].
  rewrite pipe_batches_trace_cons.
  cbn [concat batch_events flat_map] in *.
  rewrite run_all_app in H.
  destruct (run_all nlp b) as [db|] eqn:Hb; [|discriminate].
  destruct (run_all nlp (concat rest)) as [dr|] eqn:Hr; [|discriminate].
  rewrite (pipe_batch_ok_trace nlp b db Hb), pipe_batch_result, Hb.
  rewrite (IH dr eq_refl). reflexivity.
Qed.

(** X10: when [lemmatization] returns, what happened is: the model was
    loaded once, then the texts went through the pipeline in consecutive
    batches of at least 1 and at most 50 texts, each text once and in
    input order, each batch announced before its texts. *)
Theorem lemmatization_success_trace lower spacy_load texts model out :
  snd (lemmatization lower spacy_load texts model) = Ok out ->
  exists batches,
    concat batches = texts /\
    Forall (fun batch => 1 <= List.length batch <= 50) batches /\
    fst (lemmatization lower spacy_load texts model)
    = SpacyLoad model disabled :: batch_events batches /\
    processed (fst (lemmatization lower spacy_load texts model)) = texts.
Proof.
  intros H. rewrite lemmatization_result in H.
  exists (Spacy.minibatch 50 texts).
  assert (Hc : concat (Spacy.minibatch 50 texts) = texts)
    by apply concat_minibatch.
  split; [exact Hc|]. split.
  { apply (minibatch_sizes 49 (List.length texts)). apply Nat.le_refl. }
  assert (Htr : fst (lemmatization lower spacy_load texts model)
                = SpacyLoad model disabled
                    :: batch_events (Spacy.minibatch 50 texts)).
  { unfold lemmatization. fold disabled. rewrite traced_bind_trace.
    cbn [tell fst snd app].
    destruct (spacy_load model disabled) as [nlp|e];
      [|destruct e; discriminate].
    destruct (run_all nlp texts) as [docs|] eqn:Hr; [|discriminate].
    rewrite traced_bind_trace. unfold Spacy.pipe.
    rewrite (pipe_batches_ok_trace nlp (Spacy.minibatch 50 texts) docs)
      by (rewrite Hc; exact Hr).
    rewrite pipe_batches_result, Hc, Hr. simpl. rewrite app_nil_r.
    reflexivity. }
  split; [exact Htr|]. rewrite Htr. cbn [processed].
  rewrite <- Hc at 2. clear.
  induction (Spacy.minibatch 50 texts) as [|b rest IH]; [reflexivity|].
  cbn [batch_events flat_map concat processed app] in *.
  induction b as [|t b IHb]; [exact IH|].
  cbn [List.map app processed]. f_equal. exact IHb.
Qed.

Lemma lemmatization_success_trace_witness :
  processed (fst (lemmatization ascii_lower toy_load
                    [py "The Constitution."; py "We, the People"]
                    default_model))
  = [py "The Constitution."; py "We, the People"].
Proof.
  destruct (lemmatization_success_trace ascii_lower toy_load
              [py "The Constitution."; py "We, the People"] default_model
              _ eq_refl) as [batches [_ [_ [_ Hp]]]].
  exact Hp.
Defined.








Lemma doc_lemmas_lowered (lower : str -> str) doc :
  (forall s, lower (lower s) = lower s) ->
  Forall (fun token => lower token = token) (doc_lemmas lower doc).
Proof.
  intros Hl. induction doc as [|t doc IH]; simpl; [constructor|].
  destruct (Spacy.is_punct t); simpl; [exact IH|constructor; auto].
Qed.

(** X12: every token in the output is lower-case: lowering it again
    changes nothing (for a [lower] that is idempotent, as [str.lower]
    is). *)
Theorem lemmatization_output_lowered lower spacy_load texts model out :
  (forall s, lower (lower s) = lower s) ->
  snd (lemmatization lower spacy_load texts model) = Ok out ->
  Forall (Forall (fun token => lower token = token)) out.
Proof.
  intros Hl H. rewrite lemmatization_result in H.
  destruct (spacy_load model disabled) as [nlp|e];
    [|destruct e; discriminate].
  destruct (run_all nlp texts) as [docs|]; simpl in H; [|discriminate].
  inversion H; subst. apply Forall_map, Forall_forall.
  intros doc _. apply doc_lemmas_lowered, Hl.
Qed.

Lemma ascii_lower_idempotent s : ascii_lower (ascii_lower s) = ascii_lower s.
Proof.
  unfold ascii_lower. rewrite map_map. apply map_ext. intros c.
  destruct ((65 <=? c)%N && (c <=? 90)%N) eqn:E.
  - apply andb_true_iff in E as [H1 H2].
    apply N.leb_le in H1, H2.
    destruct (N.leb_spec (c + 32) 90) as [H|_]; [lia|].
    rewrite andb_false_r. reflexivity.
  - rewrite E. reflexivity.
Qed.

Lemma lemmatization_output_lowered_witness :
  Forall (Forall (fun token => ascii_lower token = token))
         [ [py "the"; py "constitution"] ].
Proof.
  apply (lemmatization_output_lowered ascii_lower toy_load
           [py "The Constitution."] default_model _
           ascii_lower_idempotent eq_refl).
Defined.

(** ** [save_parquet] and [load_parquet] *)

Lemma save_parquet_accepted to_parquet df path :
  Path.suffix (Path.of_str path) = py ".parquet" ->
  save_parquet to_parquet df path =
  match to_parquet df (Path.of_str path) with
  | Ok _ =>
    ([ToParquet (Path.of_str path) df;
      LogInfo (py "Saved Parquet file: " ++ Path.to_str (Path.of_str path))],
     Ok tt)
  | Raise e => ([ToParquet (Path.of_str path) df], Raise e)
  end.
Proof.
  intros H. unfold save_parquet. rewrite H. cbn [str_eqb py negb].
  change (str_eqb (py ".parquet") (py ".parquet")) with true. cbn [negb].
  unfold tell, lift. cbn [tbind].
  destruct (to_parquet df (Path.of_str path)) as [[]|e]; reflexivity.
Qed.

Lemma save_parquet_rejected to_parquet df path :
  Path.suffix (Path.of_str path) <> py ".parquet" ->
  save_parquet to_parquet df path
  = ([], Raise (ValueError (py "Output path must end with .parquet extension"))).
Proof.
  intros H. unfold save_parquet.
  destruct (str_eqb_spec (Path.suffix (Path.of_str path)) (py ".parquet"));
    [contradiction|reflexivity].
Qed.


Lemma firstn_not_nil {A : Type} (n : nat) (l : list A) :
  0 < n -> l <> [] -> firstn n l <> [].
Proof. destruct n; [lia|]. destruct l; [congruence|discriminate]. Qed.

Lemma suffix_parquet_iff (p : Path.t) :
  Path.suffix p = py ".parquet" <->
  exists base, base <> [] /\ Path.name p = base ++ py ".parquet".
Proof.
  unfold Path.suffix. split.
  - destruct (Z.ltb_spec 0 (rfind dot (Path.name p))) as [H0|H0];
      [|discriminate].
    destruct (Z.ltb_spec (rfind dot (Path.name p)) (len (Path.name p) - 1))
      as [H1|H1]; [|discriminate].
    cbn [andb]. unfold slice_from. intros E.
    exists (firstn (Z.to_nat (rfind dot (Path.name p))) (Path.name p)). split.
    + apply firstn_not_nil; [lia|].
      unfold len in H1. destruct (Path.name p); [simpl in H1; lia|discriminate].
    + rewrite <- E. symmetry. apply firstn_skipn.
  - intros [base [Hb ->]].
    change (py ".parquet") with (dot :: py "parquet").
    rewrite rfind_last by (vm_compute; intuition discriminate).
    unfold len. rewrite length_app.
    change (List.length (dot :: py "parquet")) with 8.
    assert (Hlen : 0 < List.length base)
      by (destruct base; [congruence|simpl; lia]).
    destruct (Z.ltb_spec 0 (Z.of_nat (List.length base))); [|lia].
    destruct (Z.ltb_spec (Z.of_nat (List.length base))
                (Z.of_nat (List.length base + 8) - 1)); [|lia].
    cbn [andb]. unfold slice_from. rewrite Nat2Z.id.
    rewrite skipn_app, Nat.sub_diag, skipn_all. reflexivity.
Qed.

(** X14: the table is handed to the writer exactly when the last
    component of the path is a non-empty base name followed by
    [.parquet]; a file named [.parquet] alone is rejected. *)
Theorem save_parquet_writes_iff to_parquet df path :
  In (ToParquet (Path.of_str path) df) (fst (save_parquet to_parquet df path))
  <->
  exists base,
    base <> [] /\ Path.name (Path.of_str path) = base ++ py ".parquet".
Proof.
  rewrite <- suffix_parquet_iff.
  destruct (str_eqb_spec (Path.suffix (Path.of_str path)) (py ".parquet"))
    as [E|E].
  - rewrite (save_parquet_accepted to_parquet df path E).
    split; [intros _; exact E|intros _].
    destruct (to_parquet df (Path.of_str path)) as [[]|e]; simpl; auto.
  - rewrite (save_parquet_rejected to_parquet df path E). simpl. tauto.
Qed.

Lemma parts_eqb_refl a : Fs.parts_eqb a a = true.
Proof.
  induction a as [|x a IH]; [reflexivity|]. simpl. rewrite IH.
  destruct (str_eqb_spec x x); [reflexivity|congruence].
Qed.

Lemma parts_eqb_eq a : forall b, Fs.parts_eqb a b = true -> a = b.
Proof.
  induction a as [|x a IH]; intros [|y b] H; simpl in H;
    try reflexivity; try discriminate.
  apply andb_true_iff in H as [Hx Hab].
  destruct (str_eqb_spec x y); [|discriminate]. f_equal; auto.
Qed.

Lemma path_eqb_spec p q : reflect (p = q) (Fs.path_eqb p q).
Proof.
  destruct p as [r ps], q as [r' qs]. unfold Fs.path_eqb. cbn [Path.root Path.parts].
  destruct (str_eqb_spec r r') as [->|Hr]; cbn [andb].
  - destruct (Fs.parts_eqb ps qs) eqn:E.
    + apply parts_eqb_eq in E. subst. constructor. reflexivity.
    + constructor. intros H. inversion H; subst.
      rewrite parts_eqb_refl in E. discriminate.
  - constructor. congruence.
Qed.

(** X15: a table saved is the table loaded.  After [save_parquet] has
    returned, if the table handed to the writer is then at its path and
    reads back as that table (what [to_parquet] and [read_parquet]
    promise), [load_parquet] of the same path string returns the table:
    it looks at the path that was written and asks for nothing more. *)
Theorem save_then_load to_parquet path_exists read_parquet df path :
  snd (save_parquet to_parquet df path) = Ok tt ->
  (forall p d,
     In (ToParquet p d) (fst (save_parquet to_parquet df path)) ->
     path_exists p = true /\ read_parquet p = Ok d) ->
  load_parquet path_exists read_parquet path = Returns df.
Proof.
  destruct (str_eqb_spec (Path.suffix (Path.of_str path)) (py ".parquet"))
    as [E|E].
  2:{ rewrite (save_parquet_rejected to_parquet df path E). discriminate. }
  rewrite (save_parquet_accepted to_parquet df path E).
  destruct (to_parquet df (Path.of_str path)) as [[]|e]; [|discriminate].
  intros _ Hio.
  destruct (Hio (Path.of_str path) df (or_introl eq_refl)) as [Hex Hrd].
  unfold load_parquet. rewrite Hex, Hrd. reflexivity.
Qed.

Lemma save_then_load_witness :
  load_parquet
    (store_exists (written (fst (save_parquet (fun _ _ => Ok tt) small_table
                                   (py "out//x.parquet"))) (fun _ => None)))
    (store_read (written (fst (save_parquet (fun _ _ => Ok tt) small_table
                                 (py "out//x.parquet"))) (fun _ => None)))
    (py "out//x.parquet")
  = Returns small_table.
Proof.
  apply (save_then_load (fun _ _ => Ok tt) _ _ small_table
           (py "out//x.parquet") eq_refl).
  intros p d [H|[H|[]]]; [|discriminate H].
  inversion H; subst. split; reflexivity.
Defined.



(** ** [verify_environment] *)

Lemma verify_loop_eq version items : forall missing,
  verify_loop version items missing =
  (mismatch_warnings version items,
   missing ++ missing_packages version items).
Proof.
  induction items as [|[pkg req] rest IH]; intros missing; simpl.
  - rewrite app_nil_r. reflexivity.
  - destruct (version pkg) as [v|].
    + destruct (str_eqb v req); simpl; rewrite IH; reflexivity.
    + rewrite IH, <- app_assoc. reflexivity.
Qed.

Lemma verify_environment_eq version :
  verify_environment version =
  match missing_packages version REQUIRED_PACKAGES with
  | [] =>
    (Log INFO (py "Verifying project environment...")
       :: mismatch_warnings version REQUIRED_PACKAGES
       ++ [Log INFO (py "Environment validation passed")], Returns tt)
  | missing =>
    (Log INFO (py "Verifying project environment...")
       :: mismatch_warnings version REQUIRED_PACKAGES
       ++ [Log ERROR (py "Missing packages: " ++ join (py ", ") missing)],
     Raises (ImportError
               (py "Please install missing packages using requirements.txt")))
  end.
Proof.
  unfold verify_environment. rewrite verify_loop_eq. cbn [app].
  destruct (missing_packages version REQUIRED_PACKAGES); reflexivity.
Qed.

Lemma missing_packages_nil version items :
  missing_packages version items = [] <->
  forall pkg req, In (pkg, req) items -> exists v, version pkg = Some v.
Proof.
  induction items as [|[p r] rest IH]; simpl.
  - split; [intros _ ? ? []|reflexivity].
  - destruct (version p) as [v|] eqn:Hp.
    + rewrite IH. split.
      * intros H pkg req [E|Hin]; [inversion E; subst; eauto|eauto].
      * intros H pkg req Hin. eauto.
    + split; [discriminate|]. intros H.
      destruct (H p r (or_introl eq_refl)) as [v Hv]. congruence.
Qed.

(** X16: [verify_environment] returns exactly when every required package
    is installed, in whatever version; a version other than the required
    one is no error.  Otherwise it raises [ImportError]. *)
Theorem verify_environment_returns_iff version :
  (snd (verify_environment version) = Returns tt <->
   forall pkg req, In (pkg, req) REQUIRED_PACKAGES ->
                   exists v, version pkg = Some v) /\
  (snd (verify_environment version) <> Returns tt ->
   snd (verify_environment version)
   = Raises (ImportError
               (py "Please install missing packages using requirements.txt"))).
Proof.
  rewrite verify_environment_eq. split.
  - rewrite <- missing_packages_nil.
    destruct (missing_packages version REQUIRED_PACKAGES); simpl.
    + split; reflexivity.
    + split; discriminate.
  - destruct (missing_packages version REQUIRED_PACKAGES); simpl.
    + intros H. contradiction H. reflexivity.
    + reflexivity.
Qed.

Lemma verify_environment_returns_iff_witness :
  snd (verify_environment
         (installed [ (py "pandas", py "1.5.0"); (py "spacy", py "3.7.2");
                      (py "numpy", py "1.24.3"); (py "pyarrow", py "13.0.0") ]))
  = Returns tt /\
  snd (verify_environment
         (installed [ (py "pandas", py "2.0.3"); (py "numpy", py "1.24.3") ]))
  = Raises (ImportError
              (py "Please install missing packages using requirements.txt")).
Proof.
  split.
  - apply (proj1 (verify_environment_returns_iff _)).
    intros pkg req [E|[E|[E|[E|[]]]]]; inversion E; subst; eexists; reflexivity.
  - apply (proj2 (verify_environment_returns_iff _)).
    vm_compute. discriminate.
Defined.

(** X17: what [verify_environment] logs: the opening line, then one
    warning for each installed package whose version is not the required
    one, in the order of [REQUIRED_PACKAGES], then either the closing
    line or one error line that lists the packages not installed, in that
    order, separated by a comma and a space. *)
Theorem verify_environment_log version :
  fst (verify_environment version) =
  Log INFO (py "Verifying project environment...")
    :: mismatch_warnings version REQUIRED_PACKAGES
    ++ [ match missing_packages version REQUIRED_PACKAGES with
         | [] => Log INFO (py "Environment validation passed")
         | missing =>
           Log ERROR (py "Missing packages: " ++ join (py ", ") missing)
         end ].
Proof.
  rewrite verify_environment_eq.
  destruct (missing_packages version REQUIRED_PACKAGES); reflexivity.
Qed.

(** Two packages missing and one in another version. *)
Example verify_log_example :
  fst (verify_environment
         (installed [ (py "pandas", py "1.5.0"); (py "numpy", py "1.24.3") ]))
  = [ Log INFO (py "Verifying project environment...");
      Log WARNING
        (py "Version mismatch: pandas (installed: 1.5.0, required: 2.0.3)");
      Log ERROR (py "Missing packages: spacy, pyarrow") ].
Proof. reflexivity. Qed.

(** ** Directories *)

Lemma extends_refl st : extends st st.
Proof. intros q k H. exact H. Qed.

Lemma extends_trans st1 st2 st3 :
  extends st1 st2 -> extends st2 st3 -> extends st1 st3.
Proof. intros H1 H2 q k H. auto. Qed.

Lemma only_dirs_added_refl st : only_dirs_added st st.
Proof. intros q k H. auto. Qed.

Lemma only_dirs_added_trans st1 st2 st3 :
  only_dirs_added st1 st2 -> only_dirs_added st2 st3 ->
  only_dirs_added st1 st3.
Proof.
  intros H1 H2 q k H. destruct (H2 q k H) as [H'|H']; [auto|auto].
Qed.

Lemma update_grows st p :
  st p = None ->
  extends st (Fs.update st p Fs.Dir) /\
  only_dirs_added st (Fs.update st p Fs.Dir).
Proof.
  intros Hp. split; intros q k H; unfold Fs.update in *;
    destruct (path_eqb_spec q p) as [->|_].
  - congruence.
  - exact H.
  - right. congruence.
  - left. exact H.
Qed.

Lemma lookup_extends st st' p k :
  extends st st' -> Fs.lookup st p = Some k -> Fs.lookup st' p = Some k.
Proof.
  intros He. unfold Fs.lookup. destruct (Path.parts p); [auto|apply He].
Qed.

Lemma is_dir_extends st st' p :
  extends st st' -> Fs.is_dir st p = true -> Fs.is_dir st' p = true.
Proof.
  intros He. unfold Fs.is_dir.
  destruct (Fs.lookup st p) as [[|]|] eqn:H; try discriminate.
  rewrite (lookup_extends st st' p Fs.Dir He H). reflexivity.
Qed.

Lemma settled_extends st st' p :
  extends st st' -> settled st p -> settled st' p.
Proof.
  intros He [Hd Hp]. split; [eapply is_dir_extends; eauto|].
  destruct (Fs.lookup st (Fs.parent p)) as [k|] eqn:H; [|congruence].
  rewrite (lookup_extends st st' _ k He H). discriminate.
Qed.

Lemma is_dir_update st p :
  Fs.is_dir (Fs.update st p Fs.Dir) p = true.
Proof.
  unfold Fs.is_dir, Fs.lookup, Fs.update.
  destruct (Path.parts p); [reflexivity|].
  destruct (path_eqb_spec p p); [reflexivity|congruence].
Qed.

Section Directories.

Variable denied : Path.t -> bool.

(** What [os.mkdir] does, case by case. *)
Lemma os_mkdir_cases st p st' r :
  Fs.os_mkdir denied st p = (st', r) ->
  (r = Returns tt /\ st p = None /\ st' = Fs.update st p Fs.Dir /\
   Fs.lookup st (Fs.parent p) = Some Fs.Dir /\ Path.parts p <> [])
  \/ (st' = st /\ (exists m, r = Raises (FileNotFoundError m)) /\
      Fs.lookup st (Fs.parent p) = None /\ Path.parts p <> [])
  \/ (st' = st /\ (exists m, r = Raises (FileExistsError m)
                             \/ r = Raises (NotADirectoryError m)
                             \/ r = Raises (PermissionError m)) /\
      Fs.lookup st (Fs.parent p) <> None).
Proof.
  unfold Fs.os_mkdir.
  destruct (Path.parts p) as [|x ps] eqn:Hparts.
  - intros H. inversion H; subst. right. right.
    split; [reflexivity|]. split; [eauto|].
    unfold Fs.lookup, Fs.parent. cbn [Path.parts]. rewrite Hparts. discriminate.
  - destruct (Fs.lookup st (Fs.parent p)) as [[|]|] eqn:Hpar.
    + destruct (st p) eqn:Hp; [|destruct (denied p)];
        intros H; inversion H; subst.
      * right. right. split; [reflexivity|]. split; [eauto|discriminate].
      * right. right. split; [reflexivity|]. split; [eauto|discriminate].
      * left. repeat split; auto. discriminate.
    + intros H; inversion H; subst. right. right.
      split; [reflexivity|]. split; [eauto|discriminate].
    + intros H; inversion H; subst. right. left.
      repeat split; eauto. discriminate.
Qed.

Lemma mkdir_single_spec st p exist_ok st' r :
  Fs.mkdir_single denied st p exist_ok = (st', r) ->
  extends st st' /\ only_dirs_added st st' /\
  (r = Returns tt -> settled st' p).
Proof.
  unfold Fs.mkdir_single.
  destruct (Fs.os_mkdir denied st p) as [st1 r1] eqn:Hos.
  apply os_mkdir_cases in Hos
    as [[-> [Hp [-> [Hpar Hne]]]]|[[-> [[m ->] [Hpar Hne]]]
                                   |[-> [[m [->|[->| ->]]] Hpar]]]].
  - intros H. inversion H; subst.
    destruct (update_grows st p Hp) as [He Ho].
    split; [exact He|]. split; [exact Ho|]. intros _. split.
    + apply is_dir_update.
    + rewrite (lookup_extends _ _ _ _ He Hpar). discriminate.
  - intros H. inversion H; subst.
    split; [apply extends_refl|]. split; [apply only_dirs_added_refl|].
    discriminate.
  - destruct (negb exist_ok || negb (Fs.is_dir st p)) eqn:E;
      intros H; inversion H; subst;
      (split; [apply extends_refl|]); (split; [apply only_dirs_added_refl|]);
      [discriminate|]. intros _.
    apply orb_false_iff in E as [_ E]. apply negb_false_iff in E.
    split; assumption.
  - destruct (negb exist_ok || negb (Fs.is_dir st p)) eqn:E;
      intros H; inversion H; subst;
      (split; [apply extends_refl|]); (split; [apply only_dirs_added_refl|]);
      [discriminate|]. intros _.
    apply orb_false_iff in E as [_ E]. apply negb_false_iff in E.
    split; assumption.
  - destruct (negb exist_ok || negb (Fs.is_dir st p)) eqn:E;
      intros H; inversion H; subst;
      (split; [apply extends_refl|]); (split; [apply only_dirs_added_refl|]);
      [discriminate|]. intros _.
    apply orb_false_iff in E as [_ E]. apply negb_false_iff in E.
    split; assumption.
Qed.

Lemma mkdir_rev_unfold st root rparts parents exist_ok :
  Fs.mkdir_rev denied st root rparts parents exist_ok =
  let self := Path.mk root (rev rparts) in
  match Fs.os_mkdir denied st self with
  | (st', Returns _) => (st', Returns tt)
  | (_, Raises (FileNotFoundError m)) =>
    match rparts with
    | [] => (st, Raises (FileNotFoundError m))
    | _ :: rparent =>
      if negb parents then (st, Raises (FileNotFoundError m))
      else
        match Fs.mkdir_rev denied st root rparent true true with
        | (st1, Returns _) => Fs.mkdir_single denied st1 self exist_ok
        | (st1, Raises e) => (st1, Raises e)
        end
    end
  | (_, Raises e) =>
    if negb exist_ok || negb (Fs.is_dir st self) then (st, Raises e)
    else (st, Returns tt)
  end.
Proof. destruct rparts; reflexivity. Qed.

Lemma mkdir_rev_cases st root rparts parents exist_ok :
  Fs.mkdir_rev denied st root rparts parents exist_ok
  = Fs.mkdir_single denied st (Path.mk root (rev rparts)) exist_ok
  \/ exists x rparent,
       rparts = x :: rparent /\
       Fs.mkdir_rev denied st root rparts parents exist_ok =
       match Fs.mkdir_rev denied st root rparent true true with
       | (st1, Returns _) =>
         Fs.mkdir_single denied st1 (Path.mk root (rev rparts)) exist_ok
       | (st1, Raises e) => (st1, Raises e)
       end.
Proof.
  rewrite mkdir_rev_unfold. cbv zeta.
  destruct (Fs.os_mkdir denied st (Path.mk root (rev rparts))) as [st1 r1] eqn:Hos.
  assert (Hleft : forall res,
            res = Fs.mkdir_single denied st (Path.mk root (rev rparts)) exist_ok ->
            res = Fs.mkdir_single denied st (Path.mk root (rev rparts)) exist_ok
            \/ exists x rparent,
                 rparts = x :: rparent /\
                 res =
                 match Fs.mkdir_rev denied st root rparent true true with
                 | (st1, Returns _) =>
                   Fs.mkdir_single denied st1 (Path.mk root (rev rparts)) exist_ok
                 | (st1, Raises e) => (st1, Raises e)
                 end) by (intros; left; assumption).
  destruct r1 as [[]|e];
    [apply Hleft; unfold Fs.mkdir_single; rewrite Hos; reflexivity|].
  destruct e;
    try (apply Hleft; unfold Fs.mkdir_single; rewrite Hos; reflexivity).
  destruct rparts as [|x rparent];
    [apply Hleft; unfold Fs.mkdir_single; rewrite Hos; reflexivity|].
  destruct parents;
    [|apply Hleft; unfold Fs.mkdir_single; rewrite Hos; reflexivity].
  right. exists x, rparent. split; reflexivity.
Qed.

Lemma mkdir_rev_spec root rparts : forall st parents exist_ok st' r,
  Fs.mkdir_rev denied st root rparts parents exist_ok = (st', r) ->
  extends st st' /\ only_dirs_added st st' /\
  (r = Returns tt -> settled st' (Path.mk root (rev rparts))).
Proof.
  induction rparts as [|x rparent IH]; intros st parents exist_ok st' r.
  - destruct (mkdir_rev_cases st root [] parents exist_ok)
      as [E|[x' [rp [E1 E]]]]; [|discriminate E1].
    rewrite E. apply mkdir_single_spec.
  - destruct (mkdir_rev_cases st root (x :: rparent) parents exist_ok)
      as [E|[x' [rp [E1 E]]]]; rewrite E; clear E;
      [apply mkdir_single_spec|].
    inversion E1; subst x' rp. clear E1.
  destruct (Fs.mkdir_rev denied st root rparent true true) as [st1 [[]|e]] eqn:Hrec;
    apply IH in Hrec as [He1 [Ho1 _]].
    + intros H. apply mkdir_single_spec in H as [He2 [Ho2 Hs]].
      split; [eapply extends_trans; eauto|].
      split; [eapply only_dirs_added_trans; eauto|exact Hs].
    + intros H. inversion H; subst.
      split; [exact He1|]. split; [exact Ho1|discriminate].
Qed.

Lemma mkdir_spec st p parents exist_ok st' r :
  Fs.mkdir denied st p parents exist_ok = (st', r) ->
  extends st st' /\ only_dirs_added st st' /\
  (r = Returns tt -> settled st' p).
Proof.
  unfold Fs.mkdir. intros H. apply mkdir_rev_spec in H.
  rewrite rev_involutive in H. destruct p. exact H.
Qed.

Lemma mkdir_settled st p :
  settled st p -> Fs.mkdir denied st p true true = (st, Returns tt).
Proof.
  intros [Hd Hpar]. unfold Fs.mkdir. rewrite mkdir_rev_unfold. cbv zeta.
  rewrite rev_involutive.
  replace (Path.mk (Path.root p) (Path.parts p)) with p by (destruct p; reflexivity).
  destruct (Fs.os_mkdir denied st p) as [st1 r1] eqn:Hos.
  apply os_mkdir_cases in Hos
    as [[-> [Hp [-> [Hpar' Hne]]]]|[[-> [[m ->] [Hpar' Hne]]]
                                    |[-> [[m [->|[->| ->]]] Hpar']]]].
  - exfalso. unfold Fs.is_dir, Fs.lookup in Hd.
    destruct (Path.parts p); [congruence|]. rewrite Hp in Hd. discriminate.
  - congruence.
  - rewrite Hd. reflexivity.
  - rewrite Hd. reflexivity.
  - rewrite Hd. reflexivity.
Qed.

Lemma os_mkdir_eq st p :
  Path.parts p <> [] ->
  Fs.os_mkdir denied st p =
  match Fs.lookup st (Fs.parent p) with
  | None => (st, Raises (FileNotFoundError (Path.to_str p)))
  | Some Fs.File => (st, Raises (NotADirectoryError (Path.to_str p)))
  | Some Fs.Dir =>
    match st p with
    | Some _ => (st, Raises (FileExistsError (Path.to_str p)))
    | None =>
      if denied p then (st, Raises (PermissionError (Path.to_str p)))
      else (Fs.update st p Fs.Dir, Returns tt)
    end
  end.
Proof. unfold Fs.os_mkdir. destruct (Path.parts p); [congruence|reflexivity]. Qed.

Lemma lookup_parts st p : Path.parts p <> [] -> Fs.lookup st p = st p.
Proof. unfold Fs.lookup. destruct (Path.parts p); [congruence|reflexivity]. Qed.

Lemma mkdir_single_ok st p :
  Path.parts p <> [] ->
  Fs.lookup st (Fs.parent p) = Some Fs.Dir ->
  st p <> Some Fs.File ->
  denied p = false ->
  exists st', Fs.mkdir_single denied st p true = (st', Returns tt).
Proof.
  intros Hne Hpar Hp Hperm. unfold Fs.mkdir_single.
  rewrite (os_mkdir_eq st p Hne), Hpar, Hperm.
  destruct (st p) as [[|]|] eqn:E; [|congruence|eauto].
  unfold Fs.is_dir. rewrite (lookup_parts st p Hne), E. simpl. eauto.
Qed.

Lemma parent_snoc root x rparent :
  Fs.parent (Path.mk root (rev (x :: rparent))) = Path.mk root (rev rparent).
Proof.
  unfold Fs.parent. cbn [Path.root Path.parts rev].
  rewrite removelast_last. reflexivity.
Qed.

Lemma parts_snoc root x rparent :
  Path.parts (Path.mk root (rev (x :: rparent))) <> [].
Proof.
  cbn [Path.parts rev]. intros H. apply app_eq_nil in H as [_ H]. discriminate.
Qed.

(** With no file in the way, [mkdir(parents=True, exist_ok=True)] returns. *)
Lemma mkdir_rev_succeeds root rparts : forall st,
  (forall q, In q (ancestors_rev root rparts) -> st q <> Some Fs.File) ->
  (forall q, In q (ancestors_rev root rparts) -> denied q = false) ->
  exists st', Fs.mkdir_rev denied st root rparts true true = (st', Returns tt).
Proof.
  induction rparts as [|x rparent IH]; intros st Hfree Hperm.
  - exists st. reflexivity.
  - pose proof (parts_snoc root x rparent) as Hne.
    pose proof (parent_snoc root x rparent) as Hparent.
    assert (Hself : st (Path.mk root (rev (x :: rparent))) <> Some Fs.File)
      by (apply Hfree; left; reflexivity).
    assert (Hok : denied (Path.mk root (rev (x :: rparent))) = false)
      by (apply Hperm; left; reflexivity).
    rewrite mkdir_rev_unfold. cbv zeta.
    rewrite (os_mkdir_eq st _ Hne), Hparent, Hok.
    destruct (Fs.lookup st (Path.mk root (rev rparent))) as [[|]|] eqn:Hpar.
    + destruct (st (Path.mk root (rev (x :: rparent)))) as [[|]|] eqn:E;
        [|congruence|eauto].
      unfold Fs.is_dir. rewrite (lookup_parts st _ Hne), E. simpl. eauto.
    + exfalso. destruct rparent as [|y rp]; [discriminate Hpar|].
      rewrite (lookup_parts st _ (parts_snoc root y rp)) in Hpar.
      apply (Hfree (Path.mk root (rev (y :: rp)))); [right; left; reflexivity|].
      exact Hpar.
    + cbn [negb].
      destruct (IH st) as [st1 Hrec];
        [intros q Hq; apply Hfree; right; exact Hq
        |intros q Hq; apply Hperm; right; exact Hq|].
      rewrite Hrec.
      destruct (mkdir_rev_spec _ _ _ _ _ _ _ Hrec) as [He [Ho Hs]].
      destruct (Hs eq_refl) as [Hd _].
      apply mkdir_single_ok; [exact Hne| | |exact Hok].
      * rewrite Hparent. unfold Fs.is_dir in Hd.
        destruct (Fs.lookup st1 (Path.mk root (rev rparent))) as [[|]|];
          try discriminate. reflexivity.
      * intros Hf. destruct (Ho _ _ Hf) as [H|H]; [contradiction|discriminate].
Qed.

Lemma mkdir_succeeds st p :
  (forall q, In q (ancestors p) -> st q <> Some Fs.File) ->
  (forall q, In q (ancestors p) -> denied q = false) ->
  exists st', Fs.mkdir denied st p true true = (st', Returns tt).
Proof. apply mkdir_rev_succeeds. Qed.

Lemma ancestors_self p : Path.parts p <> [] -> In p (ancestors p).
Proof.
  destruct p as [root parts]. unfold ancestors. cbn [Path.root Path.parts].
  intros Hne. destruct (rev parts) as [|x rp] eqn:E.
  - apply (f_equal (@rev str)) in E. rewrite rev_involutive in E.
    simpl in E. congruence.
  - left. rewrite <- E, rev_involutive. reflexivity.
Qed.

(** ** [setup_project_dirs] *)

Lemma setup_loop_spec directories : forall st logs st' r,
  setup_loop denied st directories = (logs, st', r) ->
  extends st st' /\ only_dirs_added st st' /\
  (r = Returns tt ->
   Forall (settled st') directories /\ logs = List.map verified directories).
Proof.
  induction directories as [|d rest IH]; intros st logs st' r; simpl.
  - intros H. inversion H; subst.
    split; [apply extends_refl|]. split; [apply only_dirs_added_refl|].
    intros _. split; [constructor|reflexivity].
  - destruct (Fs.mkdir denied st d true true) as [st1 [[]|e]] eqn:Hd;
      apply mkdir_spec in Hd as [He1 [Ho1 Hs1]].
    + destruct (setup_loop denied st1 rest) as [[logs2 st2] r2] eqn:Hrest.
      apply IH in Hrest as [He2 [Ho2 Hs2]].
      intros H. inversion H; subst.
      split; [eapply extends_trans; eauto|].
      split; [eapply only_dirs_added_trans; eauto|].
      intros Hr. destruct (Hs2 Hr) as [Hall ->].
      split; [|reflexivity]. constructor; [|exact Hall].
      eapply settled_extends; eauto.
    + intros H. inversion H; subst.
      split; [exact He1|]. split; [exact Ho1|discriminate].
Qed.

Lemma setup_loop_settled directories : forall st,
  Forall (settled st) directories ->
  setup_loop denied st directories = (List.map verified directories, st, Returns tt).
Proof.
  induction directories as [|d rest IH]; intros st Hall; [reflexivity|].
  inversion Hall as [|? ? Hd Hrest]; subst. simpl.
  rewrite (mkdir_settled st d Hd), (IH st Hrest). reflexivity.
Qed.

Lemma setup_loop_succeeds directories : forall st,
  (forall d q, In d directories -> In q (ancestors d) -> st q <> Some Fs.File) ->
  (forall d q, In d directories -> In q (ancestors d) -> denied q = false) ->
  exists logs st', setup_loop denied st directories = (logs, st', Returns tt).
Proof.
  induction directories as [|d rest IH]; intros st Hfree Hperm; simpl; [eauto|].
  destruct (mkdir_succeeds st d) as [st1 Hd];
    [intros q Hq; apply (Hfree d q); [left; reflexivity|exact Hq]
    |intros q Hq; apply (Hperm d q); [left; reflexivity|exact Hq]|].
  rewrite Hd. apply mkdir_spec in Hd as [_ [Ho _]].
  destruct (IH st1) as [logs [st2 Hrest]].
  - intros d' q Hd' Hq Hf. destruct (Ho _ _ Hf) as [H|H]; [|discriminate].
    apply (Hfree d' q); [right; exact Hd'|exact Hq|exact H].
  - intros d' q Hd' Hq. apply (Hperm d' q); [right; exact Hd'|exact Hq].
  - rewrite Hrest. eauto.
Qed.

Lemma respects_refl st : respects denied st st.
Proof. intros q H _. exact H. Qed.

Lemma respects_trans st1 st2 st3 :
  respects denied st1 st2 -> respects denied st2 st3 ->
  respects denied st1 st3.
Proof. intros H1 H2 q Hq Hd. apply H2; [apply H1|]; assumption. Qed.

Lemma os_mkdir_respects st p st' r :
  Fs.os_mkdir denied st p = (st', r) -> respects denied st st'.
Proof.
  unfold Fs.os_mkdir.
  destruct (Path.parts p); [intros H; inversion H; apply respects_refl|].
  destruct (Fs.lookup st (Fs.parent p)) as [[|]|];
    try (intros H; inversion H; apply respects_refl).
  destruct (st p); [intros H; inversion H; apply respects_refl|].
  destruct (denied p) eqn:Hp; intros H; inversion H; [apply respects_refl|].
  intros q Hq Hd. unfold Fs.update.
  destruct (path_eqb_spec q p) as [->|_]; [congruence|exact Hq].
Qed.

Lemma mkdir_single_respects st p exist_ok st' r :
  Fs.mkdir_single denied st p exist_ok = (st', r) -> respects denied st st'.
Proof.
  unfold Fs.mkdir_single.
  destruct (Fs.os_mkdir denied st p) as [st1 r1] eqn:Hos.
  apply os_mkdir_respects in Hos.
  destruct r1 as [[]|e]; [intros H; inversion H; subst; exact Hos|].
  destruct e; try destruct (negb exist_ok || negb (Fs.is_dir st p));
    intros H; inversion H; apply respects_refl.
Qed.

Lemma mkdir_rev_respects root rparts : forall st parents exist_ok st' r,
  Fs.mkdir_rev denied st root rparts parents exist_ok = (st', r) ->
  respects denied st st'.
Proof.
  induction rparts as [|x rparent IH]; intros st parents exist_ok st' r.
  - destruct (mkdir_rev_cases st root [] parents exist_ok)
      as [E|[x' [rp [E1 E]]]]; [|discriminate E1].
    rewrite E. apply mkdir_single_respects.
  - destruct (mkdir_rev_cases st root (x :: rparent) parents exist_ok)
      as [E|[x' [rp [E1 E]]]]; rewrite E; clear E;
      [apply mkdir_single_respects|].
    inversion E1; subst x' rp. clear E1.
    destruct (Fs.mkdir_rev denied st root rparent true true)
      as [st1 [[]|e]] eqn:Hrec; apply IH in Hrec.
    + intros H. apply mkdir_single_respects in H.
      eapply respects_trans; eauto.
    + intros H. inversion H; subst. exact Hrec.
Qed.

Lemma setup_loop_respects directories : forall st logs st' r,
  setup_loop denied st directories = (logs, st', r) -> respects denied st st'.
Proof.
  induction directories as [|d rest IH]; intros st logs st' r; simpl.
  - intros H. inversion H. apply respects_refl.
  - destruct (Fs.mkdir denied st d true true) as [st1 [[]|e]] eqn:Hd;
      apply mkdir_rev_respects in Hd.
    + destruct (setup_loop denied st1 rest) as [[logs2 st2] r2] eqn:Hrest.
      apply IH in Hrest. intros H. inversion H; subst.
      eapply respects_trans; eauto.
    + intros H. inversion H; subst. exact Hd.
Qed.

End Directories.

Lemma truediv_name p name :
  ~ In slash name -> name <> [] -> name <> [dot] ->
  Fs.truediv p name = Path.mk (Path.root p) (Path.parts p ++ [name]).
Proof.
  intros Hs Hne Hd. unfold Fs.truediv, Path.of_str.
  cbn [Path.root Path.parts].
  assert (Hroot : Path.parse_root name = []).
  { unfold Path.parse_root. destruct name as [|c name]; [reflexivity|].
    simpl. destruct (N.eqb_spec c slash) as [->|_]; [simpl in Hs; tauto|].
    reflexivity. }
  rewrite Hroot, (split_no_sep slash name Hs). simpl.
  unfold Path.keep_part.
  destruct (str_eqb_spec name []); [congruence|].
  destruct (str_eqb_spec name [dot]); [congruence|]. reflexivity.
Qed.

(** X18: where the project's directories are.  For a module at
    [base/a/b/c], the project root is [base], the data directory is
    [base/data], and the raw-text and processed directories are
    [base/data/raw/constitutions] and [base/data/processed]. *)
Theorem project_layout root base a b c :
  let file := Path.mk root (base ++ [a; b; c]) in
  PROJECT_ROOT file = Path.mk root base /\
  DATA_DIR file = Path.mk root (base ++ [py "data"]) /\
  RAW_TEXT_DIR file
  = Path.mk root (base ++ [py "data"; py "raw"; py "constitutions"]) /\
  PROCESSED_DIR file = Path.mk root (base ++ [py "data"; py "processed"]).
Proof.
  intros file.
  assert (Hroot : PROJECT_ROOT file = Path.mk root base).
  { unfold PROJECT_ROOT, Fs.parent, file. cbn [Path.root Path.parts].
    change (base ++ [a; b; c]) with (base ++ [a] ++ [b] ++ [c]).
    rewrite !app_assoc, removelast_last, removelast_last, removelast_last.
    reflexivity. }
  assert (Hdata : DATA_DIR file = Path.mk root (base ++ [py "data"])).
  { unfold DATA_DIR. rewrite Hroot.
    rewrite truediv_name;
      [reflexivity|vm_compute; intuition discriminate|discriminate|discriminate]. }
  split; [exact Hroot|]. split; [exact Hdata|]. split.
  - unfold RAW_TEXT_DIR. rewrite Hdata.
    rewrite !truediv_name;
      try (vm_compute; intuition discriminate); try discriminate.
    cbn [Path.root Path.parts]. rewrite <- !app_assoc. reflexivity.
  - unfold PROCESSED_DIR. rewrite Hdata.
    rewrite truediv_name;
      try (vm_compute; intuition discriminate); try discriminate.
    cbn [Path.root Path.parts]. rewrite <- !app_assoc. reflexivity.
Qed.

Lemma project_directories_parts file d :
  In d (project_directories file) -> Path.parts d <> [].
Proof.
  assert (Happ : forall (l : list str) x, l ++ [x] <> [])
    by (intros l x H; apply app_eq_nil in H as [_ H]; discriminate).
  assert (Hdata : forall p, Path.parts (Fs.truediv p (py "data")) <> []).
  { intros p. rewrite truediv_name;
      try (vm_compute; intuition discriminate); try discriminate.
    apply Happ. }
  intros [<-|[<-|[<-|[]]]].
  - apply Hdata.
  - unfold RAW_TEXT_DIR. rewrite (truediv_name _ (py "constitutions"));
      try (vm_compute; intuition discriminate); try discriminate.
    apply Happ.
  - unfold PROCESSED_DIR. rewrite (truediv_name _ (py "processed"));
      try (vm_compute; intuition discriminate); try discriminate.
    apply Happ.
Qed.

(** X19: when [setup_project_dirs] returns, the data, raw-text and
    processed directories are directories, and one line was logged for
    each of them, in this order. *)
Theorem setup_project_dirs_creates denied file st logs st' :
  setup_project_dirs denied file st = (logs, st', Returns tt) ->
  Fs.is_dir st' (DATA_DIR file) = true /\
  Fs.is_dir st' (RAW_TEXT_DIR file) = true /\
  Fs.is_dir st' (PROCESSED_DIR file) = true /\
  logs = [verified (DATA_DIR file); verified (RAW_TEXT_DIR file);
          verified (PROCESSED_DIR file)].
Proof.
  intros H. apply setup_loop_spec in H as [_ [_ Hs]].
  destruct (Hs eq_refl) as [Hall ->].
  inversion Hall as [|? ? [H1 _] Hall1]; subst.
  inversion Hall1 as [|? ? [H2 _] Hall2]; subst.
  inversion Hall2 as [|? ? [H3 _] _]; subst.
  repeat split; assumption.
Qed.

Lemma setup_project_dirs_creates_witness :
  Fs.is_dir (snd (fst (setup_project_dirs nothing_denied module_file
                         (fun _ => None))))
            (Path.of_str (py "/repo/src/data/raw/constitutions")) = true.
Proof.
  destruct (setup_project_dirs nothing_denied module_file (fun _ => None))
    as [[logs st'] r] eqn:E.
  assert (Hr : r = Returns tt)
    by (apply (f_equal snd) in E; vm_compute in E; congruence).
  subst r.
  destruct (setup_project_dirs_creates nothing_denied module_file
              (fun _ => None) logs st' E) as [_ [Hraw _]].
  exact Hraw.
Defined.

(** X20: whatever the outcome, [setup_project_dirs] keeps everything that
    was in the tree as it was, and what it adds are directories. *)
Theorem setup_project_dirs_keeps denied file st :
  let st' := snd (fst (setup_project_dirs denied file st)) in
  (forall q k, st q = Some k -> st' q = Some k) /\
  (forall q k, st' q = Some k -> st q = Some k \/ k = Fs.Dir).
Proof.
  intros st'. subst st'.
  destruct (setup_project_dirs denied file st) as [[logs st'] r] eqn:E.
  apply setup_loop_spec in E as [He [Ho _]]. split; assumption.
Qed.

(** X21: [setup_project_dirs] is idempotent: run again after it has
    returned, it returns again, changes nothing and logs the same. *)
Theorem setup_project_dirs_idempotent denied file st logs st' :
  setup_project_dirs denied file st = (logs, st', Returns tt) ->
  setup_project_dirs denied file st' = (logs, st', Returns tt).
Proof.
  intros H. apply setup_loop_spec in H as [_ [_ Hs]].
  destruct (Hs eq_refl) as [Hall ->].
  apply setup_loop_settled, Hall.
Qed.

Lemma setup_project_dirs_idempotent_witness :
  setup_project_dirs nothing_denied module_file
    (snd (fst (setup_project_dirs nothing_denied module_file (fun _ => None))))
  = setup_project_dirs nothing_denied module_file (fun _ => None).
Proof.
  destruct (setup_project_dirs nothing_denied module_file (fun _ => None))
    as [[logs st'] r] eqn:E.
  assert (Hr : r = Returns tt)
    by (apply (f_equal snd) in E; vm_compute in E; congruence).
  subst r. cbn [fst snd].
  apply (setup_project_dirs_idempotent nothing_denied module_file
           (fun _ => None) logs st' E).
Defined.

(** X22: with no file at the directories or above them, and the system
    refusing to make none of these paths, [setup_project_dirs] returns,
    whatever directories are already there. *)
Theorem setup_project_dirs_succeeds denied file st :
  (forall d q, In d (project_directories file) -> In q (ancestors d) ->
               st q <> Some Fs.File) ->
  (forall d q, In d (project_directories file) -> In q (ancestors d) ->
               denied q = false) ->
  exists logs st', setup_project_dirs denied file st = (logs, st', Returns tt).
Proof.
  intros Hfree Hperm. unfold setup_project_dirs.
  destruct (setup_loop_succeeds denied (project_directories file) st Hfree Hperm)
    as [logs [st' Hrun]].
  exists logs, st'. exact Hrun.
Qed.

Lemma setup_project_dirs_succeeds_witness :
  exists logs st',
    setup_project_dirs nothing_denied module_file
      (tree_of [ (py "/repo", Fs.Dir); (py "/repo/src", Fs.Dir);
                 (py "/repo/src/data", Fs.Dir) ])
    = (logs, st', Returns tt).
Proof.
  apply setup_project_dirs_succeeds.
  - intros d q [<-|[<-|[<-|[]]]] Hq; vm_compute in Hq;
      repeat (destruct Hq as [<-|Hq]; [vm_compute; discriminate|]);
      destruct Hq.
  - intros d q _ _. reflexivity.
Defined.

(** X23: a file where one of the three directories should be makes
    [setup_project_dirs] raise. *)
Theorem setup_project_dirs_file_in_the_way denied file st d :
  In d (project_directories file) ->
  st d = Some Fs.File ->
  exists e, snd (setup_project_dirs denied file st) = Raises e.
Proof.
  intros Hd Hf.
  destruct (setup_project_dirs denied file st) as [[logs st'] [[]|e]] eqn:E;
    [|simpl; eauto].
  exfalso. apply setup_loop_spec in E as [He [_ Hs]].
  destruct (Hs eq_refl) as [Hall _].
  rewrite Forall_forall in Hall. destruct (Hall d Hd) as [Hdir _].
  unfold Fs.is_dir in Hdir.
  rewrite (lookup_parts st' d (project_directories_parts file d Hd)) in Hdir.
  rewrite (He d Fs.File Hf) in Hdir. discriminate.
Qed.

Lemma setup_project_dirs_file_in_the_way_witness :
  exists e,
    snd (setup_project_dirs nothing_denied module_file
           (tree_of [ (py "/repo", Fs.Dir); (py "/repo/src", Fs.Dir);
                      (py "/repo/src/data", Fs.File) ]))
    = Raises e.
Proof.
  apply (setup_project_dirs_file_in_the_way nothing_denied module_file _
           (DATA_DIR module_file)).
  - left. reflexivity.
  - reflexivity.
Defined.

(** X27: when one of the three directories is not there and the system
    refuses to make it (no permission, a read-only file system),
    [setup_project_dirs] raises: nothing contains the failure. *)
Theorem setup_project_dirs_refused denied file st d :
  In d (project_directories file) ->
  st d = None -> denied d = true ->
  exists e, snd (setup_project_dirs denied file st) = Raises e.
Proof.
  intros Hd Hnone Hden.
  destruct (setup_project_dirs denied file st) as [[logs st'] [[]|e]] eqn:E;
    [|simpl; eauto].
  exfalso. pose proof (setup_loop_respects _ _ _ _ _ _ E d Hnone Hden) as Hst'.
  apply setup_loop_spec in E as [_ [_ Hs]].
  destruct (Hs eq_refl) as [Hall _].
  rewrite Forall_forall in Hall. destruct (Hall d Hd) as [Hdir _].
  unfold Fs.is_dir in Hdir.
  rewrite (lookup_parts st' d (project_directories_parts file d Hd)) in Hdir.
  rewrite Hst' in Hdir. discriminate.
Qed.

Lemma setup_project_dirs_refused_witness :
  snd (setup_project_dirs data_dir_denied module_file repo_tree)
  = Raises (PermissionError (py "/repo/src/data")).
Proof.
  destruct (setup_project_dirs_refused data_dir_denied module_file repo_tree
              (DATA_DIR module_file)) as [e He].
  - left. reflexivity.
  - reflexivity.
  - reflexivity.
  - rewrite He. vm_compute in He. inversion He. reflexivity.
Defined.

(** ** The module run as a script *)

Lemma verify_outcome version :
  (snd (verify_environment version) = Returns tt <->
   forall pkg req, In (pkg, req) REQUIRED_PACKAGES ->
                   exists v, version pkg = Some v) /\
  (snd (verify_environment version) <> Returns tt ->
   snd (verify_environment version)
   = Raises (ImportError
               (py "Please install missing packages using requirements.txt"))).
Proof.
  rewrite verify_environment_eq, <- missing_packages_nil.
  destruct (missing_packages version REQUIRED_PACKAGES); simpl; split;
    try (split; [reflexivity || discriminate|reflexivity || discriminate]);
    try reflexivity; congruence.
Qed.

Lemma run_module_imported import_module version denied file st :
  import_module (py "spacy") = None ->
  import_module (py "pandas") = None ->
  run_module import_module version denied file st
  = main version denied file st.
Proof.
  intros Hs Hp. unfold run_module, module_imports. simpl.
  rewrite Hs, Hp. reflexivity.
Qed.

(** X24: run as a script, the module first imports [spacy] and [pandas]:
    when one of these imports raises, the run ends with that exception,
    nothing logged and the tree untouched.  When both are imported and a
    required package is not installed, the run raises [ImportError]
    before it touches the tree: no directory is made, and what is logged
    is what [verify_environment] logs. *)
Theorem run_module_missing_package import_module version denied file st :
  (forall e,
     import_module (py "spacy") = Some e ->
     run_module import_module version denied file st = ([], st, Raises e)) /\
  (forall e,
     import_module (py "spacy") = None ->
     import_module (py "pandas") = Some e ->
     run_module import_module version denied file st = ([], st, Raises e)) /\
  (forall pkg req,
     import_module (py "spacy") = None ->
     import_module (py "pandas") = None ->
     In (pkg, req) REQUIRED_PACKAGES -> version pkg = None ->
     run_module import_module version denied file st =
     (fst (verify_environment version), st,
      Raises (ImportError
                (py "Please install missing packages using requirements.txt")))).
Proof.
  split; [|split].
  - intros e Hs. unfold run_module, module_imports. simpl. rewrite Hs.
    reflexivity.
  - intros e Hs Hp. unfold run_module, module_imports. simpl.
    rewrite Hs, Hp. reflexivity.
  - intros pkg req Hs Hp Hin Hv.
    rewrite run_module_imported by assumption. unfold main.
    destruct (verify_outcome version) as [Hiff Hraise].
    destruct (verify_environment version) as [logs r] eqn:E.
    cbn [fst snd] in *.
    assert (Hr : r <> Returns tt).
    { intros Hr. destruct (proj1 Hiff Hr pkg req Hin) as [v Hv']. congruence. }
    rewrite (Hraise Hr). reflexivity.
Qed.

Lemma run_module_missing_package_witness :
  run_module spacy_missing
    (installed [ (py "pandas", py "2.0.3"); (py "numpy", py "1.24.3") ])
    nothing_denied module_file (fun _ => None)
  = ([], fun _ => None,
     Raises (ModuleNotFoundError (py "No module named 'spacy'")))
  /\
  run_module imports_ok
    (installed [ (py "pandas", py "2.0.3"); (py "spacy", py "3.7.2");
                 (py "numpy", py "1.24.3") ])
    nothing_denied module_file (fun _ => None)
  = ([ Log INFO (py "Verifying project environment...");
       Log ERROR (py "Missing packages: pyarrow") ],
     fun _ => None,
     Raises (ImportError
               (py "Please install missing packages using requirements.txt"))).
Proof.
  split.
  - apply (proj1 (run_module_missing_package spacy_missing _ nothing_denied
                    module_file (fun _ => None))).
    reflexivity.
  - apply (proj2 (proj2 (run_module_missing_package imports_ok
             (installed [ (py "pandas", py "2.0.3"); (py "spacy", py "3.7.2");
                          (py "numpy", py "1.24.3") ])
             nothing_denied module_file (fun _ => None)))
             (py "pyarrow") (py "13.0.0")).
    + reflexivity.
    + reflexivity.
    + right. right. right. left. reflexivity.
    + reflexivity.
Defined.

(** X25: run as a script with [spacy] and [pandas] imported, every
    required package installed, no file in the way and the system
    refusing to make none of the directories, the module returns, the
    three directories are there, and the last line logged says that the
    configuration is valid. *)
Theorem run_module_succeeds import_module version denied file st :
  import_module (py "spacy") = None ->
  import_module (py "pandas") = None ->
  (forall pkg req, In (pkg, req) REQUIRED_PACKAGES ->
                   exists v, version pkg = Some v) ->
  (forall d q, In d (project_directories file) -> In q (ancestors d) ->
               st q <> Some Fs.File) ->
  (forall d q, In d (project_directories file) -> In q (ancestors d) ->
               denied q = false) ->
  exists logs st',
    run_module import_module version denied file st =
    (logs ++ [Log INFO (py "Project configuration validated successfully")],
     st', Returns tt) /\
    Forall (fun d => Fs.is_dir st' d = true) (project_directories file).
Proof.
  intros Hsp Hpd Hpk Hfree Hperm.
  rewrite run_module_imported by assumption. unfold main.
  destruct (verify_outcome version) as [Hiff _].
  destruct (verify_environment version) as [vlogs r] eqn:E. cbn [snd] in Hiff.
  rewrite (proj2 Hiff Hpk).
  destruct (setup_loop_succeeds denied (project_directories file) st Hfree Hperm)
    as [slogs [st' Hs]].
  unfold setup_project_dirs. fold (project_directories file). rewrite Hs.
  exists (vlogs ++ slogs), st'. split; [rewrite app_assoc; reflexivity|].
  apply setup_loop_spec in Hs as [_ [_ Hs]].
  destruct (Hs eq_refl) as [Hall _].
  eapply Forall_impl; [|exact Hall]. intros d [Hd _]. exact Hd.
Qed.

Lemma run_module_succeeds_witness :
  exists logs st',
    run_module imports_ok (installed REQUIRED_PACKAGES) nothing_denied
      module_file (fun _ => None)
    = (logs ++ [Log INFO (py "Project configuration validated successfully")],
       st', Returns tt) /\
    Forall (fun d => Fs.is_dir st' d = true) (project_directories module_file).
Proof.
  apply run_module_succeeds.
  - reflexivity.
  - reflexivity.
  - intros pkg req [E|[E|[E|[E|[]]]]]; inversion E; subst; eexists; reflexivity.
  - intros d q _ _. discriminate.
  - intros d q _ _. reflexivity.
Defined.
